(** * intlayer backend: pagination, tag controller, organization service

    A shallow embedding of three backend units of the repository

    - [utils/filtersAndPagination/getFiltersAndPaginationFromBody.ts]
    - [controllers/tag.controller.ts]
    - [services/organization.service.ts]

    JavaScript objects that are used as open records (the request query, a
    partial plan, the creation data of an organization) are finite maps from
    property names to values; object spread is the union of such maps, the
    later operand winning.  Numbers are the IEEE special values together with
    rationals; sums, products, quotients and parsed integers are rounded to
    the nearest binary64 number, a tie to the even significand, with overflow
    to an infinity and underflow to a signed zero. *)

From stdpp Require Import prelude strings gmap numbers pretty.
From Stdlib Require Import Ascii String QArith Qcanon Qround Qabs Qpower Lqa.

Set Warnings "-register-all".
Local Open Scope Z_scope.

(** ** The fragment of JavaScript the three units rely on *)
Module Js.

(** A JavaScript number.  [Finite 0] is [+0]; every other zero is written
    [NegZero], and no operation below builds [Finite q] from a [q] it has not
    checked against zero when the sign of the zero matters.  The arithmetic
    below rounds what it computes, so that it yields binary64 numbers
    only. *)
Inductive number :=
| NaN
| Infinity (neg : bool)
| NegZero
| Finite (q : Qc).

(** The number written by an integer literal; between
    [-Number.MAX_SAFE_INTEGER] and [Number.MAX_SAFE_INTEGER] every integer is
    a binary64 number. *)
Definition of_Z (z : Z) : number := Finite (Qc_of_Z z).

Definition MAX_SAFE_INTEGER : Z := 9007199254740991.

(** [Number.isSafeInteger] on an integer *)
Definition isSafeInteger (z : Z) : Prop :=
  - MAX_SAFE_INTEGER ≤ z ≤ MAX_SAFE_INTEGER.

#[global] Instance isSafeInteger_dec (z : Z) : Decision (isSafeInteger z) :=
  decide (- MAX_SAFE_INTEGER ≤ z ≤ MAX_SAFE_INTEGER).

Definition is_zero (x : number) : bool :=
  match x with
  | NegZero => true
  | Finite q => bool_decide (q = 0%Qc)
  | _ => false
  end.

Definition is_negative (x : number) : bool :=
  match x with
  | NaN => false
  | Infinity neg => neg
  | NegZero => true
  | Finite q => bool_decide (q < 0)%Qc
  end.

(** The rational a finite number stands for (both zeros stand for 0). *)
Definition rational (x : number) : Qc :=
  match x with
  | Finite q => q
  | _ => 0%Qc
  end.

Definition finite_value (x : number) : option Qc :=
  match x with
  | Finite q => Some q
  | NegZero => Some 0%Qc
  | _ => None
  end.

Definition signed_zero (neg : bool) : number :=
  if neg then NegZero else Finite 0.

(** A finite result with the sign the operation dictates for a zero. *)
Definition finite_signed (neg : bool) (q : Qc) : number :=
  if decide (q = 0%Qc) then signed_zero neg else Finite q.

(** *** Rounding to binary64

    A binary64 number other than zero is [m * 2^(e - 52)] for an integer
    significand [m] with [|m| < 2^53] and an exponent [e] from -1022 to
    1023. *)
Definition pow2 (k : Z) : Q := (2 ^ k)%Q.

(** The integer nearest to [x], a tie going to the even one. *)
Definition round_half_even (x : Q) : Z :=
  let f := Qfloor x in
  match (x - inject_Z f ?= 1 # 2)%Q with
  | Lt => f
  | Gt => f + 1
  | Eq => if Z.even f then f else f + 1
  end.

(** The exponent [e] with [2^e ≤ a < 2^(e + 1)], for [a > 0]. *)
Definition binade (a : Q) : Z :=
  if Qle_bool 1 a then Z.log2 (Qfloor a) else - Z.log2_up (Qceiling (/ a)).

(** The distance between the binary64 numbers around [q ≠ 0]; below the
    least normal number [2^-1022] it stays [2^-1074]. *)
Definition ulp (q : Q) : Q := pow2 (Z.max (binade (Qabs q)) (-1022) - 52).

(** The binary64 number nearest to [q]; [neg] is the sign of the result when
    [q] is zero. *)
Definition round_binary64 (neg : bool) (q : Qc) : number :=
  if decide (q = 0%Qc) then signed_zero neg
  else
    let negative := bool_decide (q < 0)%Qc in
    let m := round_half_even (q / ulp q) in
    let v := (inject_Z m * ulp q)%Q in
    if m =? 0 then signed_zero negative
    else if Qle_bool (pow2 1024) (Qabs v) then Infinity negative
    else Finite (Q2Qc v).

Definition negate (x : number) : number :=
  match x with
  | NaN => NaN
  | Infinity neg => Infinity (negb neg)
  | NegZero => Finite 0
  | Finite q => if decide (q = 0%Qc) then NegZero else Finite (- q)
  end.

Definition add (x y : number) : number :=
  match x, y with
  | NaN, _ | _, NaN => NaN
  | Infinity a, Infinity b => if Bool.eqb a b then Infinity a else NaN
  | Infinity a, _ => Infinity a
  | _, Infinity b => Infinity b
  | NegZero, NegZero => NegZero
  | NegZero, Finite q => Finite q
  | Finite p, NegZero => Finite p
  | Finite p, Finite q => round_binary64 false (p + q)
  end.

(** [x - y] *)
Definition sub (x y : number) : number := add x (negate y).

(** [x * y] *)
Definition mul (x y : number) : number :=
  match x, y with
  | NaN, _ | _, NaN => NaN
  | Infinity a, Infinity b => Infinity (xorb a b)
  | Infinity a, _ =>
      if is_zero y then NaN else Infinity (xorb a (is_negative y))
  | _, Infinity b =>
      if is_zero x then NaN else Infinity (xorb (is_negative x) b)
  | _, _ =>
      round_binary64 (xorb (is_negative x) (is_negative y))
                     (rational x * rational y)
  end.

(** [x / y] *)
Definition div (x y : number) : number :=
  match x, y with
  | NaN, _ | _, NaN => NaN
  | Infinity _, Infinity _ => NaN
  | Infinity a, _ => Infinity (xorb a (is_negative y))
  | _, Infinity b => signed_zero (xorb (is_negative x) b)
  | _, _ =>
      let neg := xorb (is_negative x) (is_negative y) in
      if is_zero y then (if is_zero x then NaN else Infinity neg)
      else round_binary64 neg (rational x / rational y)
  end.

(** [Math.ceil(x)]; the ceiling of a binary64 number is one. *)
Definition Math_ceil (x : number) : number :=
  match x with
  | NaN => NaN
  | Infinity neg => Infinity neg
  | NegZero => NegZero
  | Finite q =>
      finite_signed (bool_decide (q < 0)%Qc) (Qc_of_Z (Qceiling q))
  end.

(** *** [parseInt(string, radix)]

    Strings are sequences of 8-bit code units.  The white space that
    [parseInt] skips is TAB, LF, VT, FF, CR, SP and NBSP.  The integer that
    the digits write is rounded to binary64 as it is; an engine may also
    replace the decimal digits after the twentieth by zeros first. *)
Definition code (c : ascii) : Z := Z.of_N (N_of_ascii c).

Definition is_white_space (c : ascii) : bool :=
  let n := code c in
  ((9 <=? n) && (n <=? 13)) || (n =? 32) || (n =? 160).

Fixpoint trim_start (s : string) : string :=
  match s with
  | String c rest => if is_white_space c then trim_start rest else s
  | EmptyString => EmptyString
  end.

(** The value of a digit character in any radix up to 36. *)
Definition digit_value (c : ascii) : option Z :=
  let n := code c in
  if (48 <=? n) && (n <=? 57) then Some (n - 48)
  else if (97 <=? n) && (n <=? 122) then Some (n - 97 + 10)
  else if (65 <=? n) && (n <=? 90) then Some (n - 65 + 10)
  else None.

(** The integer written by the longest prefix of radix-[R] digits; [acc] is
    [None] until a digit has been read. *)
Fixpoint parse_digits (R : Z) (s : string) (acc : option Z) : option Z :=
  match s with
  | String c rest =>
      match digit_value c with
      | Some d =>
          if d <? R then parse_digits R rest (Some (R * default 0 acc + d))
          else acc
      | None => acc
      end
  | EmptyString => acc
  end.

Definition strip_sign (s : string) : bool * string :=
  match s with
  | String "-" rest => (true, rest)
  | String "+" rest => (false, rest)
  | _ => (false, s)
  end.

Definition strip_hex_prefix (s : string) : option string :=
  match s with
  | String "0" (String "x" rest) => Some rest
  | String "0" (String "X" rest) => Some rest
  | _ => None
  end.

Definition parseInt (input : string) (radix : Z) : number :=
  let '(neg, str) := strip_sign (trim_start input) in
  if (radix =? 0) || ((2 <=? radix) && (radix <=? 36)) then
    let '(R, digits) :=
      if (radix =? 0) || (radix =? 16) then
        match strip_hex_prefix str with
        | Some rest => (16, rest)
        | None => (if radix =? 0 then 10 else radix, str)
        end
      else (radix, str) in
    match parse_digits R digits None with
    | None => NaN
    | Some n => if n =? 0 then signed_zero neg
                else round_binary64 neg (Qc_of_Z (if neg then - n else n))
    end
  else NaN.

(** *** Values *)
Inductive value :=
| VUndefined
| VNull
| VBoolean (b : bool)
| VNumber (n : number)
| VString (s : string)
| VObjectId (hex : string)
| VArray (items : list value)
| VObject (props : gmap string value).

(** Reading a property: an absent property reads as [undefined]. *)
Definition get (o : gmap string value) (k : string) : value :=
  default VUndefined (o !! k).

(** [Object.keys(o).length] *)
Definition keys_length (o : gmap string value) : nat := size o.

(** [{ ...a, ...b }]: the properties of [b] win. *)
Definition spread (a b : gmap string value) : gmap string value := b ∪ a.

End Js.

(** ** utils/filtersAndPagination/getFiltersAndPaginationFromBody.ts *)
Module Pagination.
Import Js.

Definition DEFAULT_PAGE_SIZE : number := of_Z 1000.
Definition DEFAULT_PAGE : number := of_Z 1.

(** The part of an Express request the extractor reads: [req.query], which
    its type makes an object or [undefined] ([None]). *)
Record Request := { query : option (gmap string value) }.

Record FiltersAndPaginationResult := {
  filters : gmap string value;
  page : number;
  skip : number;
  pageSize : number;
  getNumberOfPages : number → number;
}.

(** [typeof r === 'string'] selects [parseInt(r, 10)], [typeof r ===
    'number'] selects [r], anything else keeps the current value. *)
Definition resolve (request : value) (current : number) : number :=
  match request with
  | VString s => parseInt s 10
  | VNumber n => n
  | _ => current
  end.

Definition getFiltersAndPaginationFromBody (req : Request)
  : FiltersAndPaginationResult :=
  let filters : gmap string value := ∅ in
  let pageSize := DEFAULT_PAGE_SIZE in
  let page := DEFAULT_PAGE in
  let '(filters, pageSize, page) :=
    match query req with
    | Some query =>
        let pageSizeRequest := get query "pageSize" in
        let pageRequest := get query "page" in
        let filtersRequest := delete "page" (delete "pageSize" query) in
        let pageSize := resolve pageSizeRequest pageSize in
        let page := resolve pageRequest page in
        let filters :=
          if bool_decide (0 < keys_length filtersRequest)%nat
          then filtersRequest else filters in
        (filters, pageSize, page)
    | None => (filters, pageSize, page)
    end in
  let skip := mul (sub page (of_Z 1)) pageSize in
  let getNumberOfPages := λ totalItems, Math_ceil (div totalItems pageSize) in
  {| filters := filters; skip := skip; page := page; pageSize := pageSize;
     getNumberOfPages := getNumberOfPages |}.

End Pagination.

(** ** Identifiers, thrown errors and results shared by the backend units *)
Module Backend.
Import Js.

(** [string | Types.ObjectId] *)
Inductive Id :=
| IdString (s : string)
| IdObjectId (hex : string).

(** [String(id)]: an ObjectId prints as its hexadecimal string. *)
Definition ToString (id : Id) : string :=
  match id with
  | IdString s => s
  | IdObjectId hex => hex
  end.

(** An identifier as a property value. *)
Definition id_value (id : Id) : value :=
  match id with
  | IdString s => VString s
  | IdObjectId hex => VObjectId hex
  end.

(** The keys of the error table that the modelled units use. *)
Inductive ErrorCode :=
| USER_NOT_DEFINED
| ORGANIZATION_NOT_DEFINED
| PROJECT_NOT_DEFINED
| PROJECT_DATA_NOT_FOUND
| PERMISSION_DENIED
| TAG_NOT_IN_ORGANIZATION
| TAG_ID_NOT_FOUND
| TAG_NOT_FOUND
| ORGANIZATION_NOT_FOUND
| ORGANIZATION_INVALID_FIELDS
| ORGANIZATION_CREATION_FAILED
| ORGANIZATION_UPDATE_FAILED.

(** [new GenericError(errorKey, details)] *)
Record GenericError := {
  errorKey : ErrorCode;
  details : gmap string value;
}.

(** How a call that may throw ends. *)
Inductive outcome (E A : Type) :=
| Return (a : A)
| Throw (e : E).
Arguments Return {E A} & a.
Arguments Throw {E A} & e.

(** The type expected of a pair is known before its components are read,
    so that a named error is accepted where any thrown value is. *)
Arguments pair {A B} & a b.

End Backend.

(** ** services/organization.service.ts *)
Module OrganizationService.
Import Js Backend.

(** A stored plan is read back as a sub-document, which has a [toObject]
    method; a plan given by a caller may be a plain object. *)
Inductive PlanValue :=
| PlainPlan (props : gmap string value)
| PlanDocument (props : gmap string value).

(** [Organization | OrganizationDocument]: the identifier, the embedded plan
    (absent, or [null], is [None]) and every other field. *)
Record Organization := {
  id : Id;
  plan : option PlanValue;
  fields : gmap string value;
}.

Definition set_plan (p : PlanValue) (o : Organization) : Organization :=
  {| id := id o; plan := Some p; fields := fields o |}.

(** A JavaScript [Error], of which the service reads [message]. *)
Record Error := { message : string }.

(** [OrganizationModel]: the collection holds the documents under the string
    form of their [_id]. *)
Abbreviation Collection := (gmap string Organization).

(** What a call of the service may throw: a named error of the application,
    or the [CastError] with which a mongoose query rejects when the [_id] of
    its filter cannot be cast to an ObjectId.  The service has no [try]
    around its queries, so the rejection reaches the caller. *)
Inductive Thrown :=
| Named (error : GenericError)
| CastError (path : string) (value : value).
Coercion Named : GenericError >-> Thrown.

(** The strings that a query casts to an ObjectId: 24 hexadecimal digits,
    which is also what an ObjectId prints as. *)
Definition is_hex_digit (c : ascii) : bool :=
  match digit_value c with
  | Some d => d <? 16
  | None => false
  end.

Definition is_ObjectId_hex (s : string) : bool :=
  (String.length s =? 24)%nat && forallb is_hex_digit (list_ascii_of_string s).

(** [OrganizationModel.findById(id)]; [None] is [null]. *)
Definition findById (organizationId : Id) (c : Collection)
  : outcome Thrown (option Organization) :=
  if is_ObjectId_hex (ToString organizationId)
  then Return (c !! ToString organizationId)
  else Throw (CastError "_id" (id_value organizationId)).

Record UpdateResult := { matchedCount : nat }.

(** [OrganizationModel.updateOne({ _id }, { $set: { plan } })] *)
Definition updateOne_set_plan (_id : Id) (newPlan : gmap string value)
    (c : Collection) : outcome Thrown UpdateResult * Collection :=
  if is_ObjectId_hex (ToString _id) then
    match c !! ToString _id with
    | Some doc =>
        (Return {| matchedCount := 1 |},
         <[ToString _id := set_plan (PlanDocument newPlan) doc]> c)
    | None => (Return {| matchedCount := 0 |}, c)
    end
  else (Throw (CastError "_id" (id_value _id)), c).

(** What the service imports and the sources do not contain: the field
    validator, which returns the error messages per invalid field, and
    the schema-driven [OrganizationModel.create], which may throw. *)
Class Imports := {
  validateOrganization :
    gmap string value → list string → gmap string (list string);
  Model_create :
    gmap string value → Collection
    → outcome Error Organization * Collection;
}.

(** The [errors] object as a property value. *)
Definition errors_value (errors : gmap string (list string)) : value :=
  VObject ((λ msgs, VArray (VString <$> msgs)) <$> errors).

Definition getOrganizationById (organizationId : Id) (c : Collection)
  : outcome Thrown Organization :=
  match findById organizationId c with
  | Throw rejection => Throw rejection
  | Return organization =>
      match organization with
      | None =>
          Throw (Named
                   {| errorKey := ORGANIZATION_NOT_FOUND;
                      details :=
                        {[ "organizationId" := id_value organizationId ]} |})
      | Some organization => Return organization
      end
  end.

(** [{ creatorId: userId, membersIds: [userId], adminsIds: [userId] }], the
    properties that precede [...organization] in the created object. *)
Definition creation_defaults (userId : Id) : gmap string value :=
  {[ "creatorId" := id_value userId;
     "membersIds" := VArray [id_value userId];
     "adminsIds" := VArray [id_value userId] ]}.

Definition createOrganization `{imports : Imports}
    (organization : gmap string value) (userId : Id) (c : Collection)
  : outcome GenericError Organization * Collection :=
  let errors := validateOrganization organization ["name"] in
  if bool_decide (0 < size errors)%nat then
    (Throw {| errorKey := ORGANIZATION_INVALID_FIELDS;
              details := {[ "errors" := errors_value errors ]} |}, c)
  else
    match
      Model_create (spread (creation_defaults userId) organization) c
    with
    | (Return result, c) => (Return result, c)
    | (Throw error, c) =>
        (Throw {| errorKey := ORGANIZATION_CREATION_FAILED;
                  details := {[ "error" := VString (message error) ]} |}, c)
    end.

(** [organization.plan ?? {}], replaced by its [toObject()] when it has this
    method: the properties of the previous plan. *)
Definition previous_plan (organization : Organization)
  : gmap string value :=
  match plan organization with
  | None => ∅
  | Some (PlainPlan props) => props
  | Some (PlanDocument props) => props
  end.

Definition updatePlan (organization : Organization)
    (plan : gmap string value) (c : Collection)
  : outcome Thrown Organization * Collection :=
  let prevPlan := previous_plan organization in
  match updateOne_set_plan (id organization) (spread prevPlan plan) c with
  | (Throw rejection, c) => (Throw rejection, c)
  | (Return updateOrganizationResult, c) =>
      if (matchedCount updateOrganizationResult =? 0)%nat then
        (Throw (Named
                  {| errorKey := ORGANIZATION_UPDATE_FAILED;
                     details :=
                       {[ "organizationId" :=
                            id_value (id organization) ]} |}), c)
      else
        let updatedOrganization := getOrganizationById (id organization) c in
        (updatedOrganization, c)
  end.

End OrganizationService.

(** ** controllers/tag.controller.ts *)
Module TagController.
Import Js Backend.

Record User := { user_id : Id }.
Record Project := { project_id : Id }.
Abbreviation Organization := OrganizationService.Organization.
Abbreviation organization_id := OrganizationService.id.

(** [Tag]; [id] is absent on the tag that [addTag] assembles. *)
Record Tag := {
  id : option Id;
  creatorId : Id;
  organizationId : Id;
  projectId : Id;
  key : option string;
  name : option string;
  description : option string;
  instructions : option string;
}.

(** The body of a creation request: any of the properties may be missing. *)
Record TagCreationData := {
  data_creatorId : option Id;
  data_organizationId : option Id;
  data_projectId : option Id;
  data_key : option string;
  data_name : option string;
  data_description : option string;
  data_instructions : option string;
}.

(** [Partial<TagData>], of which [updateTag] reads four properties. *)
Record UpdateTagBody := {
  body_name : option string;
  body_key : option string;
  body_description : option string;
  body_instructions : option string;
}.

(** [Partial<TagSchema> & { _id }] *)
Record TagPatch := {
  patch__id : Id;
  patch_name : option string;
  patch_key : option string;
  patch_description : option string;
  patch_instructions : option string;
}.

(** [res.locals] *)
Record Locals := {
  user : option User;
  organization : option Organization;
  project : option Project;
  roles : list string;
}.

(** [{ ...res.locals, targetTags }] *)
Record PermissionContext := {
  locals : Locals;
  targetTags : list Tag;
}.

Record AddTagRequest := { add_body : option TagCreationData }.
Record UpdateTagRequest := { update_tagId : Id; update_body : UpdateTagBody }.
Record DeleteTagRequest := { delete_tagId : option Id }.

(** The content handed to [t]: one text per locale. *)
Record Translation := { en : string; fr : string; es : string }.

(** [formatResponse({ message, description, data })] *)
Record ResponseData (T : Type) := {
  response_message : Translation;
  response_description : Translation;
  response_data : T;
}.
Arguments response_message {T}.
Arguments response_description {T}.
Arguments response_data {T}.

(** What the controller imports and the sources do not contain: the tag
    service over some store [Db], whose calls may throw an [AppError]; the
    permission predicate; the mapper to the public shape. *)
Class Imports := {
  Db : Type;
  AppError : Type;
  TagAPI : Type;
  tagService_getTagById : Id → Db → outcome AppError Tag * Db;
  tagService_createTag : Tag → Db → outcome AppError Tag * Db;
  tagService_updateTagById :
    Id → TagPatch → Db → outcome AppError Tag * Db;
  tagService_deleteTagById : Id → Db → outcome AppError (option Tag) * Db;
  hasPermission : list string → string → PermissionContext → bool;
  mapTagToAPI : Tag → TagAPI;
}.

Section Handlers.
Context `{imports : Imports}.

Inductive ServiceCall :=
| GetTagById (tagId : Id)
| CreateTag (tag : Tag)
| UpdateTagById (tagId : Id) (tag : TagPatch)
| DeleteTagById (tagId : Id).

Inductive Response :=
| GenericErrorResponse (errorKey : ErrorCode)
                       (details : option (gmap string value))
| AppErrorResponse (error : AppError)
| Json (body : ResponseData TagAPI).

(** What a handler does besides computing: it calls the tag service, writes
    to the response, writes to the log. *)
Inductive Event :=
| Called (call : ServiceCall)
| Responded (response : Response)
| Logged (line : string).

(** The response that carries an error key and no details. *)
Definition refused (errorKey : ErrorCode) : Event :=
  Responded (GenericErrorResponse errorKey None).

Record World := { store : Db; trace : list Event }.

(** A computation over the world that returns or throws. *)
Definition M (A : Type) : Type := World → outcome AppError A * World.

Definition ret {A} (a : A) : M A := λ w, (Return a, w).

Definition bind {A B} (m : M A) (k : A → M B) : M B :=
  λ w, match m w with
       | (Return a, w) => k a w
       | (Throw e, w) => (Throw e, w)
       end.

(** [try { body } catch (error) { handler }] *)
Definition try_catch {A} (body : M A) (handler : AppError → M A) : M A :=
  λ w, match body w with
       | (Return a, w) => (Return a, w)
       | (Throw error, w) => handler error w
       end.

Definition emit (e : Event) : M unit :=
  λ w, (Return (), {| store := store w; trace := trace w ++ [e] |}).

Definition call {A} (c : ServiceCall) (f : Db → outcome AppError A * Db)
  : M A :=
  λ w, let '(r, db) := f (store w) in
       (r, {| store := db; trace := trace w ++ [Called c] |}).

#[local] Instance M_ret : MRet M := @ret.
#[local] Instance M_bind : MBind M := λ A B k m, bind m k.

Definition getTagById (tagId : Id) : M Tag :=
  call (GetTagById tagId) (tagService_getTagById tagId).
Definition createTag (tag : Tag) : M Tag :=
  call (CreateTag tag) (tagService_createTag tag).
Definition updateTagById (tagId : Id) (tag : TagPatch) : M Tag :=
  call (UpdateTagById tagId tag) (tagService_updateTagById tagId tag).
Definition deleteTagById (tagId : Id) : M (option Tag) :=
  call (DeleteTagById tagId) (tagService_deleteTagById tagId).

Definition handleGenericErrorResponse (errorKey : ErrorCode)
    (details : option (gmap string value)) : M unit :=
  emit (Responded (GenericErrorResponse errorKey details)).

Definition handleAppErrorResponse (error : AppError) : M unit :=
  emit (Responded (AppErrorResponse error)).

Definition res_json (body : ResponseData TagAPI) : M unit :=
  emit (Responded (Json body)).

Definition logger_info (line : string) : M unit := emit (Logged line).

(** [String(tag.id)] *)
Definition ToString_opt (id : option Id) : string :=
  match id with
  | Some id => ToString id
  | None => "undefined"
  end.

(** [{ creatorId, organizationId, projectId, ...tagData }] *)
Definition assemble_tag (user : User) (organization : Organization)
    (project : Project) (tagData : option TagCreationData) : Tag :=
  let pick {A} (proj : TagCreationData → option A) : option A :=
    tagData ≫= proj in
  {| id := None;
     creatorId := default (user_id user) (pick data_creatorId);
     organizationId :=
       default (organization_id organization) (pick data_organizationId);
     projectId := default (project_id project) (pick data_projectId);
     key := pick data_key;
     name := pick data_name;
     description := pick data_description;
     instructions := pick data_instructions |}.

Definition addTag (req : AddTagRequest) (locals : Locals) : M unit :=
  let tagData := add_body req in
  match user locals with
  | None => handleGenericErrorResponse USER_NOT_DEFINED None
  | Some user =>
  match organization locals with
  | None => handleGenericErrorResponse ORGANIZATION_NOT_DEFINED None
  | Some organization =>
  match project locals with
  | None => handleGenericErrorResponse PROJECT_NOT_DEFINED None
  | Some project =>
    (if tagData is None
     then handleGenericErrorResponse PROJECT_DATA_NOT_FOUND None
     else mret ());;
    let tag := assemble_tag user organization project tagData in
    if negb (hasPermission (roles locals) "tag:admin"
               {| locals := locals; targetTags := [tag] |})
    then handleGenericErrorResponse PERMISSION_DENIED None
    else
      try_catch
        (newTag ← createTag tag;
         let formattedTag := mapTagToAPI newTag in
         let responseData :=
           {| response_message :=
                {| en := "Tag created successfully";
                   fr := "Tag créé avec succès";
                   es := "Tag creado con éxito" |};
              response_description :=
                {| en := "Your tag has been created successfully";
                   fr := "Votre tag a été créé avec succès";
                   es := "Su tag ha sido creado con éxito" |};
              response_data := formattedTag |} in
         res_json responseData)
        (λ error, handleAppErrorResponse error)
  end end end.

Definition updateTag (req : UpdateTagRequest) (locals : Locals) : M unit :=
  let tagId := update_tagId req in
  match user locals with
  | None => handleGenericErrorResponse USER_NOT_DEFINED None
  | Some user =>
  match organization locals with
  | None => handleGenericErrorResponse ORGANIZATION_NOT_DEFINED None
  | Some organization =>
    try_catch
      (let tag :=
         {| patch__id := tagId;
            patch_name := body_name (update_body req);
            patch_key := body_key (update_body req);
            patch_description := body_description (update_body req);
            patch_instructions := body_instructions (update_body req) |} in
       tagToDelete ← getTagById tagId;
       if negb (hasPermission (roles locals) "tag:write"
                  {| locals := locals; targetTags := [tagToDelete] |})
       then handleGenericErrorResponse PERMISSION_DENIED None
       else if bool_decide (ToString (organizationId tagToDelete)
                            ≠ ToString (organization_id organization))
       then handleGenericErrorResponse TAG_NOT_IN_ORGANIZATION None
       else
         updatedTag ← updateTagById (patch__id tag) tag;
         let formattedTag := mapTagToAPI updatedTag in
         let responseData :=
           {| response_message :=
                {| en := "Tag updated successfully";
                   fr := "Tag mis à jour avec succès";
                   es := "Tag actualizado con éxito" |};
              response_description :=
                {| en := "Your tag has been updated successfully";
                   fr := "Votre tag a été mis à jour avec succès";
                   es := "Su tag ha sido actualizado con éxito" |};
              response_data := formattedTag |} in
         res_json responseData)
      (λ error, handleAppErrorResponse error)
  end end.

(** [!tagId]: an absent identifier and the empty string are falsy. *)
Definition falsy_id (tagId : option Id) : bool :=
  match tagId with
  | None => true
  | Some (IdString s) => bool_decide (s = "")
  | Some (IdObjectId _) => false
  end.

Definition deleteTag (req : DeleteTagRequest) (locals : Locals) : M unit :=
  match user locals with
  | None => handleGenericErrorResponse USER_NOT_DEFINED None
  | Some user =>
  match organization locals with
  | None => handleGenericErrorResponse ORGANIZATION_NOT_DEFINED None
  | Some organization =>
  match delete_tagId req with
  | None => handleGenericErrorResponse TAG_ID_NOT_FOUND None
  | Some tagId =>
    if falsy_id (Some tagId)
    then handleGenericErrorResponse TAG_ID_NOT_FOUND None
    else
    try_catch
      (tagToDelete ← getTagById tagId;
       if negb (hasPermission (roles locals) "tag:admin"
                  {| locals := locals; targetTags := [tagToDelete] |})
       then handleGenericErrorResponse PERMISSION_DENIED None
       else if bool_decide (ToString (organizationId tagToDelete)
                            ≠ ToString (organization_id organization))
       then handleGenericErrorResponse TAG_NOT_IN_ORGANIZATION None
       else
         deletedTag ← deleteTagById tagId;
         match deletedTag with
         | None =>
             handleGenericErrorResponse TAG_NOT_FOUND
               (Some {[ "tagId" := id_value tagId ]})
         | Some deletedTag =>
             logger_info ("Tag deleted: " +:+ ToString_opt (id deletedTag));;
             let formattedTag := mapTagToAPI deletedTag in
             let responseData :=
               {| response_message :=
                    {| en := "Tag deleted successfully";
                       fr := "Tag supprimé avec succès";
                       es := "Tag eliminado con éxito" |};
                  response_description :=
                    {| en := "Your tag has been deleted successfully";
                       fr := "Votre tag a été supprimé avec succès";
                       es := "Su tag ha sido eliminado con éxito" |};
                  response_data := formattedTag |} in
             res_json responseData
         end)
      (λ error, handleAppErrorResponse error)
  end end end.

End Handlers.
End TagController.

(** ** Sample instances of the imported parts

    Concrete validators, stores and permission predicates on which the
    properties below are run. *)
Module Samples.
Import Js Backend.

(** A validator that asks for a non-empty string [name]. *)
Definition require_name (organization : gmap string value)
    (fieldsToCheck : list string) : gmap string (list string) :=
  if bool_decide ("name" ∈ fieldsToCheck) then
    match organization !! "name" with
    | Some (VString s) =>
        if bool_decide (s = "") then {[ "name" := ["Name is required"] ]}
        else ∅
    | _ => {[ "name" := ["Name is required"] ]}
    end
  else ∅.

(** A store that files a new organization under the identifier [org-1] and
    refuses a second one. *)
Definition create_once (data : gmap string value)
    (c : gmap string OrganizationService.Organization)
  : outcome OrganizationService.Error OrganizationService.Organization
    * gmap string OrganizationService.Organization :=
  match c !! "org-1" with
  | Some _ =>
      (Throw {| OrganizationService.message := "E11000 duplicate key" |}, c)
  | None =>
      let doc := {| OrganizationService.id := IdString "org-1";
                    OrganizationService.plan := None;
                    OrganizationService.fields := data |} in
      (Return doc, <["org-1" := doc]> c)
  end.

Definition organization_imports : OrganizationService.Imports :=
  {| OrganizationService.validateOrganization := require_name;
     OrganizationService.Model_create := create_once |}.

(** A tag service over a map from identifiers to tags. *)
Definition memory_getTagById (tagId : Id) (db : gmap string TagController.Tag)
  : outcome GenericError TagController.Tag * gmap string TagController.Tag :=
  match db !! ToString tagId with
  | Some tag => (Return tag, db)
  | None =>
      (Throw {| errorKey := TAG_NOT_FOUND;
                details := {[ "tagId" := id_value tagId ]} |}, db)
  end.

Definition with_id (tagId : Id) (tag : TagController.Tag)
  : TagController.Tag :=
  {| TagController.id := Some tagId;
     TagController.creatorId := TagController.creatorId tag;
     TagController.organizationId := TagController.organizationId tag;
     TagController.projectId := TagController.projectId tag;
     TagController.key := TagController.key tag;
     TagController.name := TagController.name tag;
     TagController.description := TagController.description tag;
     TagController.instructions := TagController.instructions tag |}.

Definition memory_createTag (tag : TagController.Tag)
    (db : gmap string TagController.Tag)
  : outcome GenericError TagController.Tag * gmap string TagController.Tag :=
  let stored := with_id (IdString "tag-new") tag in
  (Return stored, <["tag-new" := stored]> db).

Definition apply_patch (patch : TagController.TagPatch)
    (tag : TagController.Tag) : TagController.Tag :=
  {| TagController.id := TagController.id tag;
     TagController.creatorId := TagController.creatorId tag;
     TagController.organizationId := TagController.organizationId tag;
     TagController.projectId := TagController.projectId tag;
     TagController.key :=
       from_option Some (TagController.key tag)
                   (TagController.patch_key patch);
     TagController.name :=
       from_option Some (TagController.name tag)
                   (TagController.patch_name patch);
     TagController.description :=
       from_option Some (TagController.description tag)
                   (TagController.patch_description patch);
     TagController.instructions :=
       from_option Some (TagController.instructions tag)
                   (TagController.patch_instructions patch) |}.

Definition memory_updateTagById (tagId : Id) (patch : TagController.TagPatch)
    (db : gmap string TagController.Tag)
  : outcome GenericError TagController.Tag * gmap string TagController.Tag :=
  match db !! ToString tagId with
  | Some tag =>
      (Return (apply_patch patch tag),
       <[ToString tagId := apply_patch patch tag]> db)
  | None =>
      (Throw {| errorKey := TAG_NOT_FOUND;
                details := {[ "tagId" := id_value tagId ]} |}, db)
  end.

Definition memory_deleteTagById (tagId : Id)
    (db : gmap string TagController.Tag)
  : outcome GenericError (option TagController.Tag)
    * gmap string TagController.Tag :=
  (Return (db !! ToString tagId), delete (ToString tagId) db).

(** A permission predicate: the action must be among the roles, and every
    target tag must belong to the organization of the session. *)
Definition role_grants (roles : list string) (action : string)
    (context : TagController.PermissionContext) : bool :=
  bool_decide (action ∈ roles)
  && match TagController.organization (TagController.locals context) with
     | Some organization =>
         forallb
           (λ tag, bool_decide
                     (ToString (TagController.organizationId tag)
                      = ToString (OrganizationService.id organization)))
           (TagController.targetTags context)
     | None => false
     end.

(** The same without the membership test. *)
Definition role_lists (roles : list string) (action : string)
    (context : TagController.PermissionContext) : bool :=
  bool_decide (action ∈ roles).

Definition tag_imports
    (permission : list string → string → TagController.PermissionContext
                  → bool)
  : TagController.Imports :=
  {| TagController.Db := gmap string TagController.Tag;
     TagController.AppError := GenericError;
     TagController.TagAPI := TagController.Tag;
     TagController.tagService_getTagById := memory_getTagById;
     TagController.tagService_createTag := memory_createTag;
     TagController.tagService_updateTagById := memory_updateTagById;
     TagController.tagService_deleteTagById := memory_deleteTagById;
     TagController.hasPermission := permission;
     TagController.mapTagToAPI := λ tag, tag |}.

(** An organization on the free plan, and a collection that holds it. *)
Definition free_org : OrganizationService.Organization :=
  {| OrganizationService.id := IdString "65a0000000000000000000f1";
     OrganizationService.plan :=
       Some (OrganizationService.PlanDocument
               {[ "type" := VString "FREE"; "status" := VString "active" ]});
     OrganizationService.fields := {[ "name" := VString "Acme" ]} |}.

Definition registry : gmap string OrganizationService.Organization :=
  {[ "65a0000000000000000000f1" := free_org ]}.

Definition acme : OrganizationService.Organization :=
  {| OrganizationService.id := IdObjectId "65a000000000000000000001";
     OrganizationService.plan := None;
     OrganizationService.fields := {[ "name" := VString "Acme" ]} |}.

Definition alice : TagController.User :=
  {| TagController.user_id := IdObjectId "65b000000000000000000001" |}.

Definition website : TagController.Project :=
  {| TagController.project_id := IdObjectId "65c000000000000000000001" |}.

(** A tag of another organization. *)
Definition foreign_tag : TagController.Tag :=
  {| TagController.id := Some (IdString "tag-1");
     TagController.creatorId := IdObjectId "65b000000000000000000002";
     TagController.organizationId := IdObjectId "65a000000000000000000002";
     TagController.projectId := IdObjectId "65c000000000000000000002";
     TagController.key := Some "legal";
     TagController.name := Some "Legal";
     TagController.description := None;
     TagController.instructions := None |}.

Definition tag_store : gmap string TagController.Tag :=
  {[ "tag-1" := foreign_tag ]}.

(** The world in which the store holds that tag and [events] have
    happened. *)
Definition world
    (permission : list string → string → TagController.PermissionContext
                  → bool)
    (events : list (@TagController.Event (tag_imports permission)))
  : @TagController.World (tag_imports permission) :=
  @TagController.Build_World (tag_imports permission) tag_store events.

Definition session (roles : list string) : TagController.Locals :=
  {| TagController.user := Some alice;
     TagController.organization := Some acme;
     TagController.project := Some website;
     TagController.roles := roles |}.

End Samples.

(** ** services/organization.service.ts: deletion and update *)
Module OrganizationMaintenance.
Import Js Backend OrganizationService.






End OrganizationMaintenance.

(** ** What a run of a tag handler has done *)
Module TagTrace.
Import Js Backend TagController.

Section Trace.
Context `{imports : Imports}.

Definition response_of (e : Event) : option Response :=
  match e with
  | Responded response => Some response
  | _ => None
  end.

Definition call_of (e : Event) : option ServiceCall :=
  match e with
  | Called c => Some c
  | _ => None
  end.

(** The responses written, and the service calls made, in order. *)
Definition responses (events : list Event) : list Response :=
  omap response_of events.

Definition calls (events : list Event) : list ServiceCall :=
  omap call_of events.

End Trace.
End TagTrace.

(** ** controllers/tag.controller.ts: [getTags] *)
Module TagListing.
Import Js Backend Pagination TagController.

(** [formatPaginatedResponse({ data, page, pageSize, totalPages,
    totalItems })] *)
Record PaginatedResponse (T : Type) := {
  data : list T;
  response_page : number;
  response_pageSize : number;
  totalPages : number;
  totalItems : number;
}.
Arguments data {T}.
Arguments response_page {T}.
Arguments response_pageSize {T}.
Arguments totalPages {T}.
Arguments totalItems {T}.

(** What [getTags] imports beyond the imports of the other handlers: the
    extractor of the tag filters, the two queries of the tag service, the
    mapper of a list of tags. *)
Class ListingImports `{imports : Imports} := {
  getTagFiltersAndPagination : Request → Locals → FiltersAndPaginationResult;
  tagService_findTags :
    gmap string value → number → number → Db
    → outcome AppError (list Tag) * Db;
  tagService_countTags :
    gmap string value → Db → outcome AppError number * Db;
  mapTagsToAPI : list Tag → list TagAPI;
}.

Section Listing.
Context `{listing : ListingImports}.

Inductive ListingCall :=
| FindTags (filters : gmap string value) (skip limit : number)
| CountTags (filters : gmap string value).

Inductive ListingResponse :=
| ListingError (errorKey : ErrorCode)
| ListingAppError (error : AppError)
| Page (body : PaginatedResponse TagAPI).

Inductive ListingEvent :=
| Queried (call : ListingCall)
| Answered (response : ListingResponse).

Record ListingWorld := {
  listing_store : Db;
  listing_trace : list ListingEvent;
}.

Definition answer (response : ListingResponse) (w : ListingWorld)
  : outcome AppError unit * ListingWorld :=
  (Return (),
   {| listing_store := listing_store w;
      listing_trace := listing_trace w ++ [Answered response] |}).

Definition ask {A} (c : ListingCall)
    (f : Db → outcome AppError A * Db) (w : ListingWorld)
  : outcome AppError A * ListingWorld :=
  let '(r, db) := f (listing_store w) in
  (r, {| listing_store := db;
         listing_trace := listing_trace w ++ [Queried c] |}).

Definition getTags (req : Request) (locals : Locals) (w : ListingWorld)
  : outcome AppError unit * ListingWorld :=
  let r := getTagFiltersAndPagination req locals in
  match user locals with
  | None => answer (ListingError USER_NOT_DEFINED) w
  | Some user =>
  match organization locals with
  | None => answer (ListingError ORGANIZATION_NOT_DEFINED) w
  | Some organization =>
    (* try *)
    match ask (FindTags (filters r) (skip r) (pageSize r))
                (tagService_findTags (filters r) (skip r) (pageSize r)) w
    with
    | (Throw error, w) => answer (ListingAppError error) w
    | (Return tags, w) =>
        if negb (hasPermission (roles locals) "tag:read"
                   {| locals := locals; targetTags := tags |})
        then answer (ListingError PERMISSION_DENIED) w
        else
          match ask (CountTags (filters r))
                      (tagService_countTags (filters r)) w
          with
          | (Throw error, w) => answer (ListingAppError error) w
          | (Return totalItems, w) =>
              let formattedTags := mapTagsToAPI tags in
              let responseData :=
                {| data := formattedTags;
                   response_page := page r;
                   response_pageSize := pageSize r;
                   totalPages := getNumberOfPages r totalItems;
                   totalItems := totalItems |} in
              answer (Page responseData) w
          end
    end
  end end.

Definition answers (events : list ListingEvent) : list ListingResponse :=
  omap (λ e, match e with Answered r => Some r | _ => None end) events.

End Listing.
End TagListing.

(** ** The members form of a project (website dashboard) *)
Module MembersForm.
Import Backend.

(** [UserAPI], of which the form reads three properties. *)
Record UserAPI := {
  id : Id;
  name : option string;
  email : option string;
}.

(** [users.find((user) => String(user.id) === String(id))], then
    [user?.name ?? user?.email ?? String(id)]. *)
Definition getUserNames (users : list UserAPI) (id_ : Id) : string :=
  let user :=
    List.find (λ user, bool_decide (ToString (id user) = ToString id_))
              users in
  match user ≫= name with
  | Some name => name
  | None =>
      match user ≫= email with
      | Some email => email
      | None => ToString id_
      end
  end.

Record ProjectMembersFormData := {
  membersIds : list string;
  adminsIds : list string;
}.

Record Member := { userId : string; isAdmin : bool }.

(** [UpdateProjectMembersBody] *)
Record UpdateProjectMembersBody := { body_membersIds : list Member }.

(** The body that [onSubmitSuccess] hands to [updateProjectMembers]. *)
Definition onSubmitSuccess (data : ProjectMembersFormData)
  : UpdateProjectMembersBody :=
  let formattedData :=
    {| body_membersIds :=
         (λ el, {| userId := el;
                   isAdmin := bool_decide (el ∈ adminsIds data) |})
         <$> membersIds data |} in
  formattedData.

End MembersForm.

(** ** Further sample data *)
Module MoreSamples.
Import Js Backend.


(** A tag of the organization of the session. *)
Definition own_tag : TagController.Tag :=
  {| TagController.id := Some (IdString "tag-2");
     TagController.creatorId := IdObjectId "65b000000000000000000001";
     TagController.organizationId := IdObjectId "65a000000000000000000001";
     TagController.projectId := IdObjectId "65c000000000000000000001";
     TagController.key := Some "news";
     TagController.name := Some "News";
     TagController.description := None;
     TagController.instructions := None |}.

Definition own_store : gmap string TagController.Tag :=
  {[ "tag-2" := own_tag ]}.

Definition own_world
    (events : list (@TagController.Event
                      (Samples.tag_imports Samples.role_lists)))
  : @TagController.World (Samples.tag_imports Samples.role_lists) :=
  @TagController.Build_World (Samples.tag_imports Samples.role_lists)
    own_store events.

(** A creation body that names another organization. *)
Definition foreign_body : TagController.TagCreationData :=
  {| TagController.data_creatorId := None;
     TagController.data_organizationId :=
       Some (IdObjectId "65a000000000000000000002");
     TagController.data_projectId := None;
     TagController.data_key := Some "legal";
     TagController.data_name := Some "Legal";
     TagController.data_description := None;
     TagController.data_instructions := None |}.

(** A listing over the map of tags: the extractor of the repository, a
    lookup of every stored tag and their count. *)
Definition listing_imports
  : @TagListing.ListingImports (Samples.tag_imports Samples.role_lists) :=
  @TagListing.Build_ListingImports (Samples.tag_imports Samples.role_lists)
    (λ req _, Pagination.getFiltersAndPaginationFromBody req)
    (λ _ _ _ db, (Return (map_to_list db).*2, db))
    (λ _ db, (Return (of_Z (Z.of_nat (size db))), db))
    (λ tags, tags).

Definition listing_world
  : @TagListing.ListingWorld (Samples.tag_imports Samples.role_lists) :=
  @TagListing.Build_ListingWorld (Samples.tag_imports Samples.role_lists)
    own_store [].

End MoreSamples.

(** * Properties *)

(** ** Arithmetic of the number model *)
Module NumberFacts.
Import Js.

Lemma Finite_ext (p q : Qc) : (p == q)%Q → Finite p = Finite q.
Proof. intros E. f_equal. by apply Qc_is_canon. Qed.

Lemma this_of_Z (z : Z) : this (Qc_of_Z z) = inject_Z z.
Proof. reflexivity. Qed.

Lemma round_half_even_Z (z : Z) : round_half_even (inject_Z z) = z.
Proof.
  unfold round_half_even. rewrite Qfloor_Z.
  assert ((inject_Z z - inject_Z z ?= 1 # 2)%Q = Lt) as ->; [| done].
  apply (proj1 (Qlt_alt _ _)). lra.
Qed.

Lemma round_half_even_near (x : Q) :
  (x - (1 # 2) <= inject_Z (round_half_even x) <= x + (1 # 2))%Q.
Proof.
  unfold round_half_even.
  pose proof (Qfloor_le x) as Hlo. pose proof (Qlt_floor x) as Hhi.
  rewrite inject_Z_plus in Hhi. change (inject_Z 1) with 1%Q in Hhi.
  destruct (Qcompare_spec (x - inject_Z (Qfloor x)) (1 # 2)) as [E | E | E];
    [destruct (Z.even (Qfloor x)) | |];
    rewrite ?inject_Z_plus; change (inject_Z 1) with 1%Q; lra.
Qed.

Lemma pow2_pos (k : Z) : (0 < pow2 k)%Q.
Proof. apply Qpower_0_lt. lra. Qed.

Lemma pow2_of_Z (k : Z) : 0 ≤ k → (pow2 k == inject_Z (2 ^ k))%Q.
Proof. intros Hk. unfold pow2. by rewrite Zpower_Qpower. Qed.

Lemma pow2_add (a b : Z) : (pow2 (a + b) == pow2 a * pow2 b)%Q.
Proof. apply Qpower_plus. lra. Qed.

Lemma pow2_le (a b : Z) : a ≤ b → (pow2 a <= pow2 b)%Q.
Proof. intros H. apply Qpower_le_compat_l; [done | lra]. Qed.

(** [2 ^ binade a ≤ a] *)
Lemma binade_lower (a : Q) : (0 < a)%Q → (pow2 (binade a) <= a)%Q.
Proof.
  intros Ha. unfold binade. destruct (Qle_bool 1 a) eqn:E.
  - apply Qle_bool_iff in E.
    assert (1 ≤ Qfloor a) as Hf.
    { rewrite <- (Qfloor_Z 1). by apply Qfloor_resp_le. }
    destruct (Z.log2_spec (Qfloor a)) as [Hlo _]; [lia |].
    rewrite pow2_of_Z by apply Z.log2_nonneg.
    rewrite Zle_Qle in Hlo. pose proof (Qfloor_le a). lra.
  - assert (0 < / a)%Q as Hi by (by apply Qinv_lt_0_compat).
    pose proof (Qle_ceiling (/ a)) as Hc.
    assert (0 < Qceiling (/ a)) as Hc0.
    { rewrite Zlt_Qlt. change (inject_Z 0) with 0%Q. lra. }
    destruct (Z.log2_log2_up_spec (Qceiling (/ a))) as [_ Hup]; [done |].
    rewrite Zle_Qle in Hup.
    unfold pow2. rewrite Qpower_opp. fold (pow2 (Z.log2_up (Qceiling (/ a)))).
    rewrite pow2_of_Z by apply Z.log2_up_nonneg.
    apply Qle_shift_inv_r; [lra |].
    assert (a * / a == 1)%Q as Hinv by (field; lra).
    nra.
Qed.

#[global] Instance round_half_even_proper : Proper (Qeq ==> eq) round_half_even.
Proof.
  intros x y E. unfold round_half_even. rewrite (Qfloor_comp _ _ E).
  assert ((x - inject_Z (Qfloor y) ?= 1 # 2)%Q
          = (y - inject_Z (Qfloor y) ?= 1 # 2)%Q) as ->; [| done].
  apply Qcompare_comp; [by rewrite E | done].
Qed.

Lemma Qc_of_Z_eq_0 (z : Z) : Qc_of_Z z = 0%Qc ↔ z = 0.
Proof. rewrite <- Z2Qc_inj_0. apply Z2Qc_inj_iff. Qed.

Lemma pow2_1024 : (inject_Z (2 ^ 53) <= pow2 1024)%Q.
Proof. rewrite pow2_of_Z by done. rewrite <- Zle_Qle. by vm_compute. Qed.

(** A non-zero [q] is rounded to [m * ulp q], [m] the integer nearest to
    [q / ulp q], when this is neither zero nor too large. *)
Lemma round_binary64_finite (neg : bool) (q : Qc) (v : Q) :
  q ≠ 0%Qc →
  (v == inject_Z (round_half_even (q / ulp q)) * ulp q)%Q →
  ¬ (v == 0)%Q → (Qabs v < inject_Z (2 ^ 53))%Q →
  round_binary64 neg q = Finite (Q2Qc v).
Proof.
  intros Hq Ev Hv0 Hmax. unfold round_binary64.
  rewrite decide_False by done.
  destruct (Z.eqb_spec (round_half_even (q / ulp q)) 0) as [E0 | _].
  { destruct Hv0. rewrite Ev, E0. ring. }
  rewrite <- Ev.
  destruct (Qle_bool (pow2 1024) (Qabs v)) eqn:E.
  { apply Qle_bool_iff in E. pose proof pow2_1024. lra. }
  apply Finite_ext. simpl. by rewrite !Qred_correct.
Qed.

Lemma binade_of_Z (a : Z) : 0 < a → binade (inject_Z a) = Z.log2 a.
Proof.
  intros Ha. unfold binade.
  assert (Qle_bool 1 (inject_Z a) = true) as ->.
  { apply Qle_bool_iff. change 1%Q with (inject_Z 1). rewrite <- Zle_Qle. lia. }
  by rewrite Qfloor_Z.
Qed.

Lemma isSafeInteger_lt (z : Z) : isSafeInteger z ↔ Z.abs z < 2 ^ 53.
Proof. unfold isSafeInteger, MAX_SAFE_INTEGER. change (2 ^ 53) with 9007199254740992. lia. Qed.

(** The integers of the safe range are binary64 numbers. *)
Lemma round_binary64_of_Z (neg : bool) (z : Z) :
  z ≠ 0 → isSafeInteger z → round_binary64 neg (Qc_of_Z z) = of_Z z.
Proof.
  intros Hz Hsafe. apply isSafeInteger_lt in Hsafe.
  assert (Qc_of_Z z ≠ 0%Qc) as Hq by (by rewrite Qc_of_Z_eq_0).
  set (e := Z.log2 (Z.abs z)).
  assert (0 ≤ e < 53) as He.
  { split; [apply Z.log2_nonneg |]. apply Z.log2_lt_pow2; lia. }
  assert (ulp (Qc_of_Z z) = pow2 (e - 52)) as Eu.
  { unfold ulp. change (Qabs (Qc_of_Z z)) with (inject_Z (Z.abs z)).
    rewrite binade_of_Z by lia. fold e. f_equal. lia. }
  assert (pow2 (e - 52) * inject_Z (2 ^ (52 - e)) == 1)%Q as Einv.
  { rewrite <- pow2_of_Z by lia. rewrite <- pow2_add.
    by replace (e - 52 + (52 - e)) with 0 by lia. }
  pose proof (pow2_pos (e - 52)) as Hpos.
  assert (Qc_of_Z z / ulp (Qc_of_Z z) == inject_Z (z * 2 ^ (52 - e)))%Q as Em.
  { rewrite Eu, inject_Z_mult. change (this (Qc_of_Z z)) with (inject_Z z).
    rewrite <- (Qmult_1_r (inject_Z z / _)), <- Einv. field. lra. }
  transitivity (Finite (Q2Qc (inject_Z z)));
    [| apply Finite_ext; simpl; by rewrite Qred_correct].
  apply round_binary64_finite; [done | | |].
  - rewrite Em, round_half_even_Z, Eu, inject_Z_mult.
    rewrite <- (Qmult_1_r (inject_Z z)) at 1. rewrite <- Einv. ring.
  - change 0%Q with (inject_Z 0). by rewrite inject_Z_injective.
  - change (Qabs (inject_Z z)) with (inject_Z (Z.abs z)).
    by rewrite <- Zlt_Qlt.
Qed.

Lemma Qceiling_unique (x : Q) (n : Z) :
  (inject_Z n - 1 < x)%Q → (x <= inject_Z n)%Q → Qceiling x = n.
Proof.
  intros Hlo Hhi.
  pose proof (Qle_ceiling x) as Hc. pose proof (Qceiling_lt x) as Hc'.
  unfold Z.sub in Hc'. rewrite inject_Z_plus, inject_Z_opp in Hc'.
  change (inject_Z 1) with 1%Q in Hc'.
  assert (n < Qceiling x + 1).
  { rewrite Zlt_Qlt, inject_Z_plus. change (inject_Z 1) with 1%Q. lra. }
  assert (Qceiling x < n + 1).
  { rewrite Zlt_Qlt, inject_Z_plus. change (inject_Z 1) with 1%Q. lra. }
  lia.
Qed.

Lemma finite_signed_nonzero (neg : bool) (q : Qc) :
  q ≠ 0%Qc → finite_signed neg q = Finite q.
Proof. intros H. unfold finite_signed. by rewrite decide_False. Qed.

Lemma Math_ceil_of_Z (z : Z) : z ≠ 0 → Math_ceil (of_Z z) = of_Z z.
Proof.
  intros Hz. unfold Math_ceil, of_Z.
  change (this (Qc_of_Z z)) with (inject_Z z). rewrite Qceiling_Z.
  apply finite_signed_nonzero. by rewrite Qc_of_Z_eq_0.
Qed.

Lemma Math_ceil_between (v : Q) (n : Z) :
  n ≠ 0 → (inject_Z n - 1 < v)%Q → (v <= inject_Z n)%Q →
  Math_ceil (Finite (Q2Qc v)) = of_Z n.
Proof.
  intros Hn Hlo Hhi. unfold Math_ceil, of_Z.
  assert (Qceiling (Q2Qc v) = n) as ->.
  { rewrite <- (Qceiling_unique v n Hlo Hhi).
    apply Qceiling_comp, Qred_correct. }
  apply finite_signed_nonzero. by rewrite Qc_of_Z_eq_0.
Qed.

(** The spacing around [x ≥ 2^-1022] is at most [x * 2^-52]; below, it is
    [2^-1074]. *)
Lemma ulp_upper (x : Q) :
  (0 < x)%Q → (ulp x <= x * pow2 (-52) ∨ ulp x <= pow2 (-52))%Q.
Proof.
  intros Hx. unfold ulp.
  assert (Qabs x == x)%Q as Ea by (apply Qabs_pos; lra).
  pose proof (binade_lower (Qabs x)) as Hb.
  destruct (Z.max_spec (binade (Qabs x)) (-1022)) as [[_ ->] | [_ ->]].
  - right. by apply pow2_le.
  - left. replace (binade (Qabs x) - 52) with (binade (Qabs x) + -52) by lia.
    rewrite pow2_add. apply Qmult_le_compat_r.
    + rewrite <- Ea at 2. apply Hb. lra.
    + apply Qlt_le_weak, pow2_pos.
Qed.

Lemma nearest_multiple_between (X U S T M N : Q) :
  (0 < S)%Q → (0 < U)%Q → (X * S == T)%Q →
  (X / U - (1 # 2) <= M <= X / U + (1 # 2))%Q →
  (U * S < 2)%Q →
  ((N - 1) * S + 1 <= T)%Q → (T <= N * S - 1)%Q →
  (N - 1 < M * U < N)%Q.
Proof.
  intros HS HU EX [Hlo Hhi] HUS HT1 HT2.
  assert ((X / U - (1 # 2)) * U * S <= M * U * S)%Q as H1
    by (repeat apply Qmult_le_compat_r; lra).
  assert (M * U * S <= (X / U + (1 # 2)) * U * S)%Q as H2
    by (repeat apply Qmult_le_compat_r; lra).
  assert ((X / U - (1 # 2)) * U * S == T - (1 # 2) * (U * S))%Q as E1
    by (rewrite <- EX; field; lra).
  assert ((X / U + (1 # 2)) * U * S == T + (1 # 2) * (U * S))%Q as E2
    by (rewrite <- EX; field; lra).
  rewrite E1 in H1. rewrite E2 in H2.
  split; apply (Qmult_lt_r _ _ S); try done; lra.
Qed.

Lemma this_div_of_Z (t s : Z) :
  (this (Qc_of_Z t / Qc_of_Z s)%Qc == inject_Z t / inject_Z s)%Q.
Proof.
  unfold Qcdiv, Qcmult, Qcinv. simpl. by rewrite !Qred_correct.
Qed.

(** Rounding the quotient of two positive integers of the safe range does
    not move it across an integer. *)
Lemma ceil_round_div (neg : bool) (t s n : Z) :
  0 < t → isSafeInteger t → 0 < s → isSafeInteger s →
  (n - 1) * s < t ≤ n * s →
  Math_ceil (round_binary64 neg (Qc_of_Z t / Qc_of_Z s)) = of_Z n.
Proof.
  intros Ht Hst Hs Hss [Hlo Hhi].
  apply isSafeInteger_lt in Hst, Hss.
  assert (1 ≤ n) as Hn by nia.
  assert (n ≤ t) as Hnt by nia.
  assert (0 < inject_Z s)%Q as HS.
  { change 0%Q with (inject_Z 0). by rewrite <- Zlt_Qlt. }
  pose proof (this_div_of_Z t s) as Ex.
  destruct (decide (t = n * s)) as [-> | Hne].
  - assert ((Qc_of_Z (n * s) / Qc_of_Z s)%Qc = Qc_of_Z n) as ->.
    { apply Qc_is_canon. rewrite Ex. change (this (Qc_of_Z n)) with (inject_Z n).
      rewrite inject_Z_mult. field. lra. }
    rewrite round_binary64_of_Z; [apply Math_ceil_of_Z; lia | lia |].
    apply isSafeInteger_lt. lia.
  - set (q := (Qc_of_Z t / Qc_of_Z s)%Qc) in *.
    assert (this q * inject_Z s == inject_Z t)%Q as Hx.
    { rewrite Ex. field. lra. }
    assert (0 < inject_Z t)%Q as HT.
    { change 0%Q with (inject_Z 0). by rewrite <- Zlt_Qlt. }
    assert (0 < q)%Q as Hq.
    { rewrite Ex. apply Qlt_shift_div_l; lra. }
    assert (q ≠ 0%Qc) as Hq0.
    { intros E. rewrite E in Hq. by apply Qlt_irrefl in Hq. }
    assert (inject_Z t < inject_Z (2 ^ 53))%Q as HT53
      by (rewrite <- Zlt_Qlt; lia).
    assert (inject_Z s < inject_Z (2 ^ 53))%Q as HS53
      by (rewrite <- Zlt_Qlt; lia).
    assert (pow2 (-52) * inject_Z (2 ^ 53) == 2)%Q as E52 by (by vm_compute).
    assert (ulp q * inject_Z s < 2)%Q as Hu.
    { destruct (ulp_upper q Hq) as [Hup | Hup].
      - apply Qle_lt_trans with (q * pow2 (-52) * inject_Z s)%Q.
        + apply Qmult_le_compat_r; lra.
        + assert (q * pow2 (-52) * inject_Z s == pow2 (-52) * inject_Z t)%Q
            as -> by (rewrite <- Hx; ring).
          rewrite <- E52. apply Qmult_lt_l; [apply pow2_pos | done].
      - apply Qle_lt_trans with (pow2 (-52) * inject_Z s)%Q.
        + apply Qmult_le_compat_r; lra.
        + rewrite <- E52. apply Qmult_lt_l; [apply pow2_pos | done]. }
    assert (0 < ulp q)%Q as HU by apply pow2_pos.
    set (m := round_half_even (q / ulp q)).
    destruct (nearest_multiple_between q (ulp q) (inject_Z s) (inject_Z t)
                (inject_Z m) (inject_Z n)) as [Hv1 Hv2];
      [done | done | done | apply round_half_even_near | done | | |].
    { assert ((n + -1) * s + 1 ≤ t) as H by lia.
      rewrite Zle_Qle, inject_Z_plus, inject_Z_mult, inject_Z_plus in H.
      change (inject_Z 1) with 1%Q in H.
      change (inject_Z (-1)) with (-1)%Q in H. lra. }
    { assert (t ≤ n * s + -1) as H by lia.
      rewrite Zle_Qle, inject_Z_plus, inject_Z_mult in H.
      change (inject_Z (-1)) with (-1)%Q in H. lra. }
    assert (inject_Z 1 <= inject_Z n)%Q as Hn1 by (by rewrite <- Zle_Qle).
    change (inject_Z 1) with 1%Q in Hn1.
    assert (inject_Z n <= inject_Z t)%Q as Hnt' by (by rewrite <- Zle_Qle).
    rewrite (round_binary64_finite neg q (inject_Z m * ulp q));
      [| done | done | lra |].
    + apply Math_ceil_between; [lia | lra | lra].
    + rewrite Qabs_pos by lra. lra.
Qed.

Lemma of_Z_0 : of_Z 0 = Finite 0.
Proof. by apply Finite_ext. Qed.

Lemma finite_signed_pos (q : Qc) : finite_signed false q = Finite q.
Proof. unfold finite_signed. case_decide; [by subst | done]. Qed.

Lemma round_binary64_safe (z : Z) :
  isSafeInteger z → round_binary64 false (Qc_of_Z z) = of_Z z.
Proof.
  intros Hz. destruct (decide (z = 0)) as [-> | Hne].
  - by rewrite of_Z_0.
  - by apply round_binary64_of_Z.
Qed.

Lemma sub_of_Z (a b : Z) :
  isSafeInteger (a - b) → sub (of_Z a) (of_Z b) = of_Z (a - b).
Proof.
  intros Hsafe. unfold sub, of_Z; simpl. case_decide as E.
  - apply Qc_of_Z_eq_0 in E. subst. simpl. by rewrite Z.sub_0_r.
  - simpl. fold (Qc_of_Z a - Qc_of_Z b)%Qc. rewrite <- Z2Qc_inj_sub.
    by apply round_binary64_safe.
Qed.

Lemma mul_finite (p q : Qc) :
  mul (Finite p) (Finite q)
  = round_binary64 (xorb (bool_decide (p < 0)%Qc) (bool_decide (q < 0)%Qc))
                   (p * q).
Proof. done. Qed.

Lemma finite_value_mul_of_Z (a b : Z) :
  isSafeInteger (a * b) →
  finite_value (mul (of_Z a) (of_Z b)) = Some (Qc_of_Z (a * b)).
Proof.
  intros Hsafe. unfold of_Z. rewrite mul_finite, <- Z2Qc_inj_mul.
  destruct (decide (a * b = 0)) as [-> | Hne].
  - rewrite Z2Qc_inj_0. unfold round_binary64. rewrite decide_True by done.
    by destruct (xorb _ _).
  - by rewrite round_binary64_of_Z.
Qed.

Lemma mul_of_Z_nonzero (a b : Z) :
  a * b ≠ 0 → isSafeInteger (a * b) → mul (of_Z a) (of_Z b) = of_Z (a * b).
Proof.
  intros Hne Hsafe. unfold of_Z at 1 2. rewrite mul_finite, <- Z2Qc_inj_mul.
  by apply round_binary64_of_Z.
Qed.

Lemma mul_of_Z_nonneg (a b : Z) :
  0 ≤ a → 0 ≤ b → isSafeInteger (a * b) →
  mul (of_Z a) (of_Z b) = of_Z (a * b).
Proof.
  intros Ha Hb Hsafe. unfold of_Z at 1 2. rewrite mul_finite.
  rewrite (bool_decide_eq_false_2 (Qc_of_Z a < 0)%Qc).
  2:{ apply Qcle_not_lt. rewrite <- Z2Qc_inj_0.
      by apply (proj1 (Z2Qc_inj_le 0 a)). }
  rewrite (bool_decide_eq_false_2 (Qc_of_Z b < 0)%Qc).
  2:{ apply Qcle_not_lt. rewrite <- Z2Qc_inj_0.
      by apply (proj1 (Z2Qc_inj_le 0 b)). }
  simpl. rewrite <- Z2Qc_inj_mul. by apply round_binary64_safe.
Qed.

Lemma mul_NaN_r (x : number) : mul x NaN = NaN.
Proof. by destruct x. Qed.

Lemma div_NaN_r (x : number) : div x NaN = NaN.
Proof. by destruct x. Qed.

Lemma div_of_Z_pos (t s : Z) :
  0 ≤ t → 0 < s →
  div (of_Z t) (of_Z s) = round_binary64 false (Qc_of_Z t / Qc_of_Z s).
Proof.
  intros Ht Hs. unfold div, of_Z; simpl.
  rewrite (bool_decide_eq_false_2 (Qc_of_Z s = 0%Qc))
    by (rewrite Qc_of_Z_eq_0; lia).
  rewrite (bool_decide_eq_false_2 (Qc_of_Z t < 0)%Qc).
  2:{ apply Qcle_not_lt. rewrite <- Z2Qc_inj_0.
      by apply (proj1 (Z2Qc_inj_le 0 t)). }
  rewrite (bool_decide_eq_false_2 (Qc_of_Z s < 0)%Qc); [done |].
  apply Qcle_not_lt. rewrite <- Z2Qc_inj_0.
  apply (proj1 (Z2Qc_inj_le 0 s)). lia.
Qed.

(** Dividing a non-negative integer by a positive one, both of the safe
    range, and rounding up gives the least [n] with [t ≤ n * s]. *)
Lemma ceil_div_of_Z (t s n : Z) :
  0 ≤ t → isSafeInteger t → 0 < s → isSafeInteger s →
  (n - 1) * s < t ≤ n * s →
  Math_ceil (div (of_Z t) (of_Z s)) = of_Z n.
Proof.
  intros Ht Hst Hs Hss Hn. rewrite div_of_Z_pos by done.
  destruct (decide (t = 0)) as [-> | Hne].
  - assert (n = 0) as -> by nia.
    assert ((Qc_of_Z 0 / Qc_of_Z s)%Qc = 0%Qc) as ->.
    { apply Qc_is_canon. rewrite this_div_of_Z.
      change (this 0%Qc) with 0%Q. change (inject_Z 0) with 0%Q.
      unfold Qdiv. ring. }
    unfold round_binary64. rewrite decide_True by done.
    by apply Finite_ext.
  - apply ceil_round_div; [lia | done | done | done | done].
Qed.

Ltac safe := unfold isSafeInteger, MAX_SAFE_INTEGER in *; lia.

(** Evaluates a number and compares its value with the expected one. *)
Ltac evaluate :=
  lazymatch goal with
  | |- ?x = _ =>
      let v := eval vm_compute in x in
      transitivity v;
      [vm_compute; reflexivity
      | first [reflexivity | apply Finite_ext; vm_compute; reflexivity]]
  end.

Lemma ceiling_exists (t s : Z) : 0 < s → ∃ n : Z, (n - 1) * s < t ≤ n * s.
Proof.
  intros Hs. exists ((t - 1) `div` s + 1).
  pose proof (Z.div_mod (t - 1) s) as Hd.
  pose proof (Z.mod_pos_bound (t - 1) s Hs) as Hm. nia.
Qed.

End NumberFacts.

(** ** The pagination extractor *)
Module PaginationFacts.
Import Js Pagination NumberFacts.

Section Resolved.
Variable q : gmap string value.
Let r := getFiltersAndPaginationFromBody {| query := Some q |}.

Lemma pageSize_resolved :
  pageSize r = resolve (get q "pageSize") DEFAULT_PAGE_SIZE.
Proof. done. Qed.

Lemma page_resolved : page r = resolve (get q "page") DEFAULT_PAGE.
Proof. done. Qed.

Lemma filters_rest : filters r = delete "page" (delete "pageSize" q).
Proof.
  subst r. unfold getFiltersAndPaginationFromBody, keys_length; simpl.
  case_bool_decide as E; [done |].
  symmetry. apply map_size_empty_iff. lia.
Qed.

End Resolved.

Lemma skip_unfold (req : Request) :
  let r := getFiltersAndPaginationFromBody req in
  skip r = mul (sub (page r) (of_Z 1)) (pageSize r).
Proof. unfold getFiltersAndPaginationFromBody. by destruct (query req). Qed.

Lemma getNumberOfPages_unfold (req : Request) (totalItems : number) :
  let r := getFiltersAndPaginationFromBody req in
  getNumberOfPages r totalItems = Math_ceil (div totalItems (pageSize r)).
Proof. unfold getFiltersAndPaginationFromBody. by destruct (query req). Qed.

Lemma get_lookup (q : gmap string value) (k : string) (v : value) :
  q !! k = Some v → get q k = v.
Proof. unfold get. by intros ->. Qed.

Lemma get_absent (q : gmap string value) (k : string) :
  q !! k = None → get q k = VUndefined.
Proof. unfold get. by intros ->. Qed.


(** C5.  On a query object the filters are the query without [page] and
    [pageSize], every other property as it was given; a missing [page] is 1
    and a missing [pageSize] is 1000. *)
Theorem filters_are_the_rest_of_the_query (q : gmap string value) :
  let r := getFiltersAndPaginationFromBody {| query := Some q |} in
  filters r = delete "page" (delete "pageSize" q)
  ∧ (∀ k, k ≠ "page" → k ≠ "pageSize" → filters r !! k = q !! k)
  ∧ filters r !! "page" = None
  ∧ filters r !! "pageSize" = None
  ∧ (q !! "page" = None → page r = of_Z 1)
  ∧ (q !! "pageSize" = None → pageSize r = of_Z 1000).
Proof.
  intros r. subst r. rewrite filters_rest. repeat split.
  - intros k Hp Hs. by rewrite !lookup_delete_ne.
  - by rewrite lookup_delete_eq.
  - by rewrite lookup_delete_ne, lookup_delete_eq.
  - intros E. by rewrite page_resolved, (get_absent _ _ E).
  - intros E. by rewrite pageSize_resolved, (get_absent _ _ E).
Qed.



(** C10.  A [page] or [pageSize] given as a string is replaced by
    [parseInt(string, 10)], the integer written by its leading decimal
    digits; [parseInt("abc", 10)] is [NaN], and a [pageSize]
    that parses to [NaN] makes [pageSize], [skip] and every
    [getNumberOfPages(totalItems)] [NaN]: the defaults are not used. *)
Theorem string_pagination_is_parsed_and_may_be_NaN :
  (∀ (q : gmap string value) (s : string),
     q !! "pageSize" = Some (VString s) →
     pageSize (getFiltersAndPaginationFromBody {| query := Some q |})
     = parseInt s 10)
  ∧ (∀ (q : gmap string value) (s : string),
       q !! "page" = Some (VString s) →
       page (getFiltersAndPaginationFromBody {| query := Some q |})
       = parseInt s 10)
  ∧ parseInt "25" 10 = of_Z 25
  ∧ parseInt " 12px" 10 = of_Z 12
  ∧ parseInt "abc" 10 = NaN
  ∧ (∀ (q : gmap string value) (s : string),
       q !! "pageSize" = Some (VString s) → parseInt s 10 = NaN →
       let r := getFiltersAndPaginationFromBody {| query := Some q |} in
       pageSize r = NaN ∧ skip r = NaN
       ∧ ∀ totalItems, getNumberOfPages r totalItems = NaN)
  ∧ (let r := getFiltersAndPaginationFromBody
                {| query := Some {[ "pageSize" := VString "abc" ]} |} in
     pageSize r = NaN ∧ pageSize r ≠ DEFAULT_PAGE_SIZE
     ∧ page r = DEFAULT_PAGE ∧ skip r = NaN
     ∧ ∀ totalItems, getNumberOfPages r totalItems = NaN).
Proof.
  assert (∀ (q : gmap string value) (s : string),
     q !! "pageSize" = Some (VString s) →
     pageSize (getFiltersAndPaginationFromBody {| query := Some q |})
     = parseInt s 10) as Hsize.
  { intros q s E. by rewrite pageSize_resolved, (get_lookup _ _ _ E). }
  assert (∀ (q : gmap string value) (s : string),
       q !! "pageSize" = Some (VString s) → parseInt s 10 = NaN →
       let r := getFiltersAndPaginationFromBody {| query := Some q |} in
       pageSize r = NaN ∧ skip r = NaN
       ∧ ∀ totalItems, getNumberOfPages r totalItems = NaN) as Hnan.
  { intros q s E Hs r.
    assert (pageSize r = NaN) as En by (subst r; by rewrite (Hsize q s E)).
    split; [done |]. split.
    - subst r. by rewrite skip_unfold, En, mul_NaN_r.
    - intros t. subst r. by rewrite getNumberOfPages_unfold, En, div_NaN_r. }
  split; [exact Hsize |]. split.
  { intros q s E. by rewrite page_resolved, (get_lookup _ _ _ E). }
  split; [evaluate |]. split; [evaluate |].
  split; [done |]. split; [exact Hnan |].
  intros r.
  destruct (Hnan {[ "pageSize" := VString "abc" ]} "abc") as (En & Ek & Hp);
    [done | done |].
  fold r in En, Ek, Hp.
  split; [done |]. split; [by rewrite En |]. by repeat split.
Qed.

End PaginationFacts.

(** ** The organization service *)
Module OrganizationFacts.
Import Js Backend OrganizationService.

Lemma getOrganizationById_cast (organizationId : Id)
    (c : gmap string Organization) :
  is_ObjectId_hex (ToString organizationId) = true →
  getOrganizationById organizationId c
  = match c !! ToString organizationId with
    | Some doc => Return doc
    | None =>
        Throw (Named
                 {| errorKey := ORGANIZATION_NOT_FOUND;
                    details :=
                      {[ "organizationId" := id_value organizationId ]} |})
    end.
Proof. intros Hcast. unfold getOrganizationById, findById. by rewrite Hcast. Qed.




Section Create.
Context `{imports : Imports}.

(** C8.  When the validation of [name] reports no error, [createOrganization]
    hands to [OrganizationModel.create] the creation data completed with
    [creatorId = userId], [membersIds = [userId]] and [adminsIds = [userId]]
    for each of these the data does not carry, and returns the created
    document (or throws [ORGANIZATION_CREATION_FAILED] with the message of the
    store's error).  When the validation reports an error it throws
    [ORGANIZATION_INVALID_FIELDS] with the errors, and nothing is handed to the
    store, which stays as it was. *)
Theorem createOrganization_records_creator
    (organization : gmap string value) (userId : Id)
    (c : gmap string Organization) :
  let errors := validateOrganization organization ["name"] in
  let data := spread (creation_defaults userId) organization in
  (errors = ∅ →
     (∀ result c', Model_create data c = (Return result, c') →
        createOrganization organization userId c = (Return result, c'))
     ∧ (∀ error c', Model_create data c = (Throw error, c') →
          createOrganization organization userId c
          = (Throw {| errorKey := ORGANIZATION_CREATION_FAILED;
                      details := {[ "error" := VString (message error) ]} |},
             c')))
  ∧ (organization !! "creatorId" = None →
     data !! "creatorId" = Some (id_value userId))
  ∧ (organization !! "membersIds" = None →
     data !! "membersIds" = Some (VArray [id_value userId]))
  ∧ (organization !! "adminsIds" = None →
     data !! "adminsIds" = Some (VArray [id_value userId]))
  ∧ (∀ k v, organization !! k = Some v → data !! k = Some v)
  ∧ (errors ≠ ∅ →
     createOrganization organization userId c
     = (Throw {| errorKey := ORGANIZATION_INVALID_FIELDS;
                 details := {[ "errors" := errors_value errors ]} |}, c)).
Proof.
  intros errors data. unfold createOrganization. fold errors. fold data.
  split; [| split; [| split; [| split; [| split]]]].
  - intros E. rewrite E, map_size_empty. simpl.
    split; intros ? ? ->; done.
  - intros E. unfold data, spread. by rewrite lookup_union_r.
  - intros E. unfold data, spread. by rewrite lookup_union_r.
  - intros E. unfold data, spread. by rewrite lookup_union_r.
  - intros k v E. unfold data, spread. by apply lookup_union_Some_l.
  - intros E. rewrite bool_decide_eq_true_2; [done |].
    apply map_size_non_empty_iff in E. lia.
Qed.

End Create.

Lemma createOrganization_records_creator_witness :
  Samples.require_name {[ "name" := VString "Acme" ]} ["name"] = ∅
  ∧ ∃ doc,
      createOrganization (imports := Samples.organization_imports)
        {[ "name" := VString "Acme" ]} (IdString "user-1") ∅
      = (Return doc, {[ "org-1" := doc ]})
      ∧ fields doc !! "creatorId" = Some (VString "user-1")
      ∧ fields doc !! "membersIds" = Some (VArray [VString "user-1"])
      ∧ fields doc !! "adminsIds" = Some (VArray [VString "user-1"])
      ∧ fields doc !! "name" = Some (VString "Acme").
Proof.
  split; [done |].
  destruct (createOrganization_records_creator
              (imports := Samples.organization_imports)
              {[ "name" := VString "Acme" ]} (IdString "user-1") ∅)
    as (Hvalid & Hcreator & Hmembers & Hadmins & Hdata & _).
  destruct (Hvalid eq_refl) as (Hcreated & _).
  eexists. split; [by apply Hcreated |]. simpl.
  split; [by apply Hcreator |]. split; [by apply Hmembers |].
  split; [by apply Hadmins |]. by apply Hdata.
Defined.

Lemma updatePlan_cast (organization : Organization)
    (plan : gmap string value) (c : gmap string Organization) :
  is_ObjectId_hex (ToString (id organization)) = true →
  updatePlan organization plan c
  = match c !! ToString (id organization) with
    | Some doc =>
        let doc' :=
          set_plan (PlanDocument (spread (previous_plan organization) plan))
                   doc in
        (Return doc', <[ToString (id organization) := doc']> c)
    | None =>
        (Throw (Named
                  {| errorKey := ORGANIZATION_UPDATE_FAILED;
                     details :=
                       {[ "organizationId" :=
                            id_value (id organization) ]} |}), c)
    end.
Proof.
  intros Hcast. unfold updatePlan, updateOne_set_plan. rewrite Hcast.
  destruct (c !! ToString (id organization)) as [doc |]; [| done].
  simpl. rewrite (getOrganizationById_cast _ _ Hcast).
  by rewrite lookup_insert_eq.
Qed.



End OrganizationFacts.

(** ** The tag controller *)
Module TagFacts.
Import Js Backend TagController.

Section Controller.
Context `{imports : Imports}.

Ltac run_handler :=
  unfold try_catch, mbind, M_bind, bind, getTagById, createTag,
    updateTagById, deleteTagById, call, handleGenericErrorResponse, emit;
  simpl.

Lemma updateTag_after_lookup (req : UpdateTagRequest) (locals : Locals)
    (w : World) (u : User) (org : Organization) (tag : Tag) (db' : Db) :
  user locals = Some u → organization locals = Some org →
  tagService_getTagById (update_tagId req) (store w) = (Return tag, db') →
  hasPermission (roles locals) "tag:write"
    {| locals := locals; targetTags := [tag] |} = false
  ∨ ToString (organizationId tag) ≠ ToString (organization_id org) →
  updateTag req locals w
  = (Return (),
     {| store := db';
        trace := trace w ++
          [Called (GetTagById (update_tagId req));
           refused (if hasPermission (roles locals) "tag:write"
                         {| locals := locals; targetTags := [tag] |}
                    then TAG_NOT_IN_ORGANIZATION else PERMISSION_DENIED)] |}).
Proof.
  intros Hu Ho Hget Hstop. unfold updateTag. rewrite Hu, Ho.
  run_handler. rewrite Hget. simpl.
  destruct (hasPermission _ _ _); simpl.
  - destruct Hstop as [? | Hne]; [done |].
    rewrite (bool_decide_eq_true_2 _ Hne). simpl.
    by rewrite <- app_assoc.
  - by rewrite <- app_assoc.
Qed.

Lemma deleteTag_after_lookup (req : DeleteTagRequest) (locals : Locals)
    (w : World) (u : User) (org : Organization) (tagId : Id) (tag : Tag)
    (db' : Db) :
  user locals = Some u → organization locals = Some org →
  delete_tagId req = Some tagId → falsy_id (Some tagId) = false →
  tagService_getTagById tagId (store w) = (Return tag, db') →
  hasPermission (roles locals) "tag:admin"
    {| locals := locals; targetTags := [tag] |} = false
  ∨ ToString (organizationId tag) ≠ ToString (organization_id org) →
  deleteTag req locals w
  = (Return (),
     {| store := db';
        trace := trace w ++
          [Called (GetTagById tagId);
           refused (if hasPermission (roles locals) "tag:admin"
                         {| locals := locals; targetTags := [tag] |}
                    then TAG_NOT_IN_ORGANIZATION else PERMISSION_DENIED)] |}).
Proof.
  intros Hu Ho Hid Htruthy Hget Hstop. unfold deleteTag.
  rewrite Hu, Ho, Hid, Htruthy.
  run_handler. rewrite Hget. simpl.
  destruct (hasPermission _ _ _); simpl.
  - destruct Hstop as [? | Hne]; [done |].
    rewrite (bool_decide_eq_true_2 _ Hne). simpl.
    by rewrite <- app_assoc.
  - by rewrite <- app_assoc.
Qed.

(** C2, as amended.  In [deleteTag] and in [updateTag], when the tag has been
    fetched and its [organizationId] differs, as a string, from the
    identifier of the caller's organization, the handler makes no other
    service call than the lookup and leaves the store as the lookup left it;
    it responds [TAG_NOT_IN_ORGANIZATION] when the permission check has
    passed, and [PERMISSION_DENIED] when it has not. *)
Theorem foreign_tag_is_refused_without_mutation
    (locals : Locals) (w : World) (u : User) (org : Organization)
    (tagId : Id) (tag : Tag) (db' : Db) :
  user locals = Some u → organization locals = Some org →
  tagService_getTagById tagId (store w) = (Return tag, db') →
  ToString (organizationId tag) ≠ ToString (organization_id org) →
  (falsy_id (Some tagId) = false →
   deleteTag {| delete_tagId := Some tagId |} locals w
   = (Return (),
      {| store := db';
         trace := trace w ++
           [Called (GetTagById tagId);
            refused (if hasPermission (roles locals) "tag:admin"
                          {| locals := locals; targetTags := [tag] |}
                     then TAG_NOT_IN_ORGANIZATION
                     else PERMISSION_DENIED)] |}))
  ∧ (∀ body,
       updateTag {| update_tagId := tagId; update_body := body |} locals w
       = (Return (),
          {| store := db';
             trace := trace w ++
               [Called (GetTagById tagId);
                refused (if hasPermission (roles locals) "tag:write"
                              {| locals := locals; targetTags := [tag] |}
                         then TAG_NOT_IN_ORGANIZATION
                         else PERMISSION_DENIED)] |})).
Proof.
  intros Hu Ho Hget Hne. split.
  - intros Htruthy. by eapply deleteTag_after_lookup; eauto.
  - intros body. by eapply updateTag_after_lookup; eauto.
Qed.

(** C3.  In [addTag], [updateTag] and [deleteTag], when the handler comes to
    the permission check and [hasPermission] returns [false], it responds
    [PERMISSION_DENIED] and calls none of [createTag], [updateTagById],
    [deleteTagById]: [addTag] calls no service at all, the two others have
    called the lookup only, and the store is as the lookup left it. *)
Theorem permission_denied_stops_before_mutation
    (locals : Locals) (w : World) (u : User) (org : Organization) :
  user locals = Some u → organization locals = Some org →
  (∀ req proj,
     project locals = Some proj →
     hasPermission (roles locals) "tag:admin"
       {| locals := locals;
          targetTags := [assemble_tag u org proj (add_body req)] |} = false →
     addTag req locals w
     = (Return (),
        {| store := store w;
           trace := trace w ++
             (if add_body req is None then [refused PROJECT_DATA_NOT_FOUND]
              else []) ++ [refused PERMISSION_DENIED] |}))
  ∧ (∀ req tag db',
       tagService_getTagById (update_tagId req) (store w)
       = (Return tag, db') →
       hasPermission (roles locals) "tag:write"
         {| locals := locals; targetTags := [tag] |} = false →
       updateTag req locals w
       = (Return (),
          {| store := db';
             trace := trace w ++ [Called (GetTagById (update_tagId req));
                                  refused PERMISSION_DENIED] |}))
  ∧ (∀ req tagId tag db',
       delete_tagId req = Some tagId → falsy_id (Some tagId) = false →
       tagService_getTagById tagId (store w) = (Return tag, db') →
       hasPermission (roles locals) "tag:admin"
         {| locals := locals; targetTags := [tag] |} = false →
       deleteTag req locals w
       = (Return (),
          {| store := db';
             trace := trace w ++ [Called (GetTagById tagId);
                                  refused PERMISSION_DENIED] |})).
Proof.
  intros Hu Ho. split; [| split].
  - intros req proj Hp Hdeny. unfold addTag. rewrite Hu, Ho, Hp.
    run_handler. destruct (add_body req); simpl in *;
      rewrite Hdeny; simpl; [done |].
    by rewrite <- app_assoc.
  - intros req tag db' Hget Hdeny.
    rewrite (updateTag_after_lookup req locals w u org tag db') by auto.
    by rewrite Hdeny.
  - intros req tagId tag db' Hid Htruthy Hget Hdeny.
    rewrite (deleteTag_after_lookup req locals w u org tagId tag db')
      by auto.
    by rewrite Hdeny.
Qed.

(** C4.  In [addTag] with no [tagData], the handler responds
    [PROJECT_DATA_NOT_FOUND] and goes on to the permission check on the tag
    made of the three defaults: when the check fails it also responds
    [PERMISSION_DENIED]; when it passes, [createTag] is called with that
    tag. *)
Theorem addTag_without_data_reaches_permission_check
    (locals : Locals) (w : World) (u : User) (org : Organization)
    (proj : Project) :
  user locals = Some u → organization locals = Some org →
  project locals = Some proj →
  let tag := assemble_tag u org proj None in
  let context := {| locals := locals; targetTags := [tag] |} in
  tag = {| id := None; creatorId := user_id u;
           organizationId := organization_id org;
           projectId := project_id proj; key := None; name := None;
           description := None; instructions := None |}
  ∧ (hasPermission (roles locals) "tag:admin" context = false →
     addTag {| add_body := None |} locals w
     = (Return (),
        {| store := store w;
           trace := trace w ++ [refused PROJECT_DATA_NOT_FOUND;
                                refused PERMISSION_DENIED] |}))
  ∧ (hasPermission (roles locals) "tag:admin" context = true →
     ∃ w', addTag {| add_body := None |} locals w = (Return (), w')
           ∧ ∃ rest, trace w' = trace w ++ [refused PROJECT_DATA_NOT_FOUND;
                                            Called (CreateTag tag)] ++ rest).
Proof.
  intros Hu Ho Hp tag context. split; [done |]. split.
  - intros Hdeny. unfold addTag. rewrite Hu, Ho, Hp. run_handler.
    fold tag. fold context. rewrite Hdeny. simpl. by rewrite <- app_assoc.
  - intros Hallow. unfold addTag. rewrite Hu, Ho, Hp. run_handler.
    fold tag. fold context. rewrite Hallow. simpl.
    destruct (tagService_createTag tag (store w)) as [[newTag | error] db'];
      simpl; unfold res_json, handleAppErrorResponse, emit; simpl;
      eexists; (split; [done |]); simpl; eexists;
      rewrite <- !app_assoc; simpl; done.
Qed.

End Controller.

(** C2, as stated, fails: the permission check comes first.  With a
    permission predicate that refuses a tag of another organization, deleting
    such a tag is answered [PERMISSION_DENIED], not
    [TAG_NOT_IN_ORGANIZATION]. *)
Lemma foreign_tag_is_answered_permission_denied :
  tagService_getTagById (Imports := Samples.tag_imports Samples.role_grants)
    (IdString "tag-1") Samples.tag_store
  = (Return Samples.foreign_tag, Samples.tag_store)
  ∧ ToString (organizationId Samples.foreign_tag)
    ≠ ToString (organization_id Samples.acme)
  ∧ deleteTag (imports := Samples.tag_imports Samples.role_grants)
      {| delete_tagId := Some (IdString "tag-1") |}
      (Samples.session ["tag:admin"])
      (Samples.world Samples.role_grants [])
    = (Return (),
       Samples.world Samples.role_grants
          [Called (GetTagById (IdString "tag-1"));
                    refused PERMISSION_DENIED])
  ∧ refused TAG_NOT_IN_ORGANIZATION
    ∉ trace (deleteTag (imports := Samples.tag_imports Samples.role_grants)
               {| delete_tagId := Some (IdString "tag-1") |}
               (Samples.session ["tag:admin"])
               (Samples.world Samples.role_grants [])).2.
Proof.
  split; [reflexivity |]. split; [by intros [=] |].
  assert (deleteTag (imports := Samples.tag_imports Samples.role_grants)
            {| delete_tagId := Some (IdString "tag-1") |}
            (Samples.session ["tag:admin"])
            (Samples.world Samples.role_grants [])
          = (Return (),
             Samples.world Samples.role_grants
               [Called (GetTagById (IdString "tag-1"));
                refused PERMISSION_DENIED])) as E by reflexivity.
  split; [exact E |]. rewrite E. unfold refused. cbn [snd trace Samples.world].
  intros Hin.
  apply elem_of_cons in Hin as [Hin | Hin]; [discriminate Hin |].
  apply elem_of_cons in Hin as [Hin | Hin]; [discriminate Hin |].
  by apply elem_of_nil in Hin.
Qed.

Lemma foreign_tag_is_refused_without_mutation_witness :
  ToString (organizationId Samples.foreign_tag)
  ≠ ToString (organization_id Samples.acme)
  ∧ deleteTag (imports := Samples.tag_imports Samples.role_lists)
      {| delete_tagId := Some (IdString "tag-1") |}
      (Samples.session ["tag:admin"])
      (Samples.world Samples.role_lists [])
    = (Return (),
       Samples.world Samples.role_lists
          [Called (GetTagById (IdString "tag-1"));
                    refused TAG_NOT_IN_ORGANIZATION]).
Proof.
  assert (ToString (organizationId Samples.foreign_tag)
          ≠ ToString (organization_id Samples.acme)) as Hne
    by (by intros [=]).
  split; [exact Hne |].
  exact (proj1 (foreign_tag_is_refused_without_mutation
                  (imports := Samples.tag_imports Samples.role_lists)
                  (Samples.session ["tag:admin"])
                  (Samples.world Samples.role_lists [])
                  Samples.alice Samples.acme (IdString "tag-1")
                  Samples.foreign_tag Samples.tag_store
                  eq_refl eq_refl eq_refl Hne) eq_refl).
Defined.

Lemma permission_denied_stops_before_mutation_witness :
  addTag (imports := Samples.tag_imports Samples.role_lists)
    {| add_body := None |} (Samples.session ["tag:read"])
    (Samples.world Samples.role_lists [])
  = (Return (),
     Samples.world Samples.role_lists
          [refused PROJECT_DATA_NOT_FOUND;
                  refused PERMISSION_DENIED])
  ∧ deleteTag (imports := Samples.tag_imports Samples.role_lists)
      {| delete_tagId := Some (IdString "tag-1") |}
      (Samples.session ["tag:read"])
      (Samples.world Samples.role_lists [])
    = (Return (),
       Samples.world Samples.role_lists
          [Called (GetTagById (IdString "tag-1"));
                    refused PERMISSION_DENIED]).
Proof.
  destruct (permission_denied_stops_before_mutation
              (imports := Samples.tag_imports Samples.role_lists)
              (Samples.session ["tag:read"])
              (Samples.world Samples.role_lists [])
              Samples.alice Samples.acme eq_refl eq_refl)
    as (Hadd & _ & Hdelete).
  split.
  - exact (Hadd {| add_body := None |} Samples.website eq_refl eq_refl).
  - exact (Hdelete {| delete_tagId := Some (IdString "tag-1") |}
             (IdString "tag-1") Samples.foreign_tag Samples.tag_store
             eq_refl eq_refl eq_refl eq_refl).
Defined.

Lemma addTag_without_data_reaches_permission_check_witness :
  addTag (imports := Samples.tag_imports Samples.role_lists)
    {| add_body := None |} (Samples.session ["tag:read"])
    (Samples.world Samples.role_lists [])
  = (Return (),
     Samples.world Samples.role_lists
          [refused PROJECT_DATA_NOT_FOUND;
                  refused PERMISSION_DENIED]).
Proof.
  exact (proj1 (proj2 (addTag_without_data_reaches_permission_check
                         (imports := Samples.tag_imports Samples.role_lists)
                         (Samples.session ["tag:read"])
                         (Samples.world Samples.role_lists [])
                         Samples.alice Samples.acme Samples.website
                         eq_refl eq_refl eq_refl)) eq_refl).
Defined.

End TagFacts.

(** ** The pagination extractor: edge behaviour and composition *)
Module PaginationEdgeFacts.
Import Js Pagination NumberFacts PaginationFacts.

(** *** Decimal numerals *)

Lemma digit_value_pretty_N_char (d : N) :
  (d < 10)%N → digit_value (pretty_N_char d) = Some (Z.of_N d).
Proof.
  intros Hd.
  assert (d = 0 ∨ d = 1 ∨ d = 2 ∨ d = 3 ∨ d = 4 ∨ d = 5 ∨ d = 6 ∨ d = 7
          ∨ d = 8 ∨ d = 9)%N as Hcases by lia.
  repeat (destruct Hcases as [-> | Hcases]; [done |]). by subst.
Qed.

Lemma pretty_N_char_plain (d : N) (rest : string) :
  trim_start (String (pretty_N_char d) rest) = String (pretty_N_char d) rest
  ∧ strip_sign (String (pretty_N_char d) rest)
    = (false, String (pretty_N_char d) rest).
Proof. unfold pretty_N_char. by repeat case_match. Qed.

(** The digits of a positive [x] are read back as [x], shifting what has
    been read before. *)
Lemma parse_digits_pretty_N_go (x : N) :
  (0 < x)%N →
  ∃ m : Z, ∀ (s : string) (acc : option Z),
    parse_digits 10 (pretty_N_go x s) acc
    = parse_digits 10 s (Some (default 0 acc * m + Z.of_N x)).
Proof.
  induction (N.lt_wf_0 x) as [x _ IH]. intros Hx.
  assert (x `mod` 10 < 10)%N as Hd by (by apply N.mod_lt).
  assert (Z.of_N x = 10 * Z.of_N (x `div` 10) + Z.of_N (x `mod` 10)) as Hz.
  { rewrite <- (N2Z.inj_mul 10), <- N2Z.inj_add. f_equal.
    by apply N.div_mod. }
  destruct (decide (x `div` 10 = 0)%N) as [E0 | Hne].
  - exists 10. intros s acc. rewrite pretty_N_go_step by done.
    rewrite Hz, E0, pretty_N_go_0. simpl.
    rewrite (digit_value_pretty_N_char _ Hd).
    rewrite (proj2 (Z.ltb_lt _ 10)) by lia. do 2 f_equal. lia.
  - destruct (IH (x `div` 10)%N) as [m Hm]; [by apply N.div_lt | lia |].
    exists (10 * m). intros s acc. rewrite pretty_N_go_step, Hm by done.
    rewrite Hz. simpl. rewrite (digit_value_pretty_N_char _ Hd).
    rewrite (proj2 (Z.ltb_lt _ 10)) by lia. do 2 f_equal. lia.
Qed.

Lemma pretty_N_go_head (x : N) (s : string) :
  (0 < x)%N → ∃ d rest, pretty_N_go x s = String (pretty_N_char d) rest.
Proof.
  revert s. induction (N.lt_wf_0 x) as [x _ IH]. intros s Hx.
  rewrite pretty_N_go_step by done.
  destruct (decide (x `div` 10 = 0)%N) as [E0 | Hne].
  - rewrite E0, pretty_N_go_0. eauto.
  - apply IH; [by apply N.div_lt | by apply N.neq_0_lt_0].
Qed.

(** [parseInt] in radix 10, once the sign and the digits are known. *)
Lemma parseInt_10 (input : string) (neg : bool) (digits : string) :
  strip_sign (trim_start input) = (neg, digits) →
  parseInt input 10
  = match parse_digits 10 digits None with
    | None => NaN
    | Some n => if n =? 0 then signed_zero neg
                else round_binary64 neg (Qc_of_Z (if neg then - n else n))
    end.
Proof. intros E. unfold parseInt. by rewrite E. Qed.

(** [parseInt] reads the decimal numeral of a safe integer back as that
    integer. *)
Lemma parseInt_pretty (z : Z) :
  isSafeInteger z → parseInt (pretty z) 10 = of_Z z.
Proof.
  intros Hsafe.
  assert (∀ p : positive,
            ∃ rest, pretty_N_go (N.pos p) "" = rest
                    ∧ trim_start rest = rest
                    ∧ strip_sign rest = (false, rest)
                    ∧ parse_digits 10 rest None = Some (Z.pos p)) as Hpos.
  { intros p. eexists. split; [done |].
    destruct (pretty_N_go_head (N.pos p) "") as (d & rest & E); [done |].
    destruct (parse_digits_pretty_N_go (N.pos p)) as [m Hm]; [done |].
    rewrite Hm. rewrite E.
    destruct (pretty_N_char_plain d rest) as [-> ->]. by simpl. }
  destruct z as [| p | p]; [by apply Finite_ext | |];
    destruct (Hpos p) as (rest & E & Ht & Hs & Hp);
    unfold pretty, pretty_Z, pretty, pretty_positive, pretty, pretty_N;
    rewrite decide_False by done; rewrite E.
  - rewrite (parseInt_10 rest false rest) by (by rewrite Ht).
    rewrite Hp. by apply round_binary64_of_Z.
  - rewrite (parseInt_10 ("-" +:+ rest) true rest) by done.
    rewrite Hp. by apply round_binary64_of_Z.
Qed.

(** *** Integer pages *)

(** [skip] on a result whose [page] and [pageSize] are integers. *)
Lemma skip_of_integers (req : Request) (p s : Z) :
  let r := getFiltersAndPaginationFromBody req in
  page r = of_Z p → pageSize r = of_Z s → isSafeInteger (p - 1) →
  skip r = mul (of_Z (p - 1)) (of_Z s).
Proof.
  intros r Ep Es Hsafe. subst r. by rewrite skip_unfold, Ep, Es, sub_of_Z.
Qed.

Lemma resolved_number (q : gmap string value) (k : string) (n current : number) :
  q !! k = Some (VNumber n) → resolve (get q k) current = n.
Proof. intros E. by rewrite (get_lookup _ _ _ E). Qed.

(** X1.  A query that gives [page] and [pageSize] as the decimal numerals of
    the integers [p] and [s], as Express delivers them, resolves to [p] and
    [s] when these are safe integers; when [p - 1] and [(p - 1) * s] are safe
    integers too, the returned [skip] has the value [(p - 1) * s], and is
    that integer when [p ≥ 1] and [s ≥ 0]. *)
Theorem numeral_strings_resolve_to_their_integers
    (q : gmap string value) (p s : Z) :
  q !! "page" = Some (VString (pretty p)) →
  q !! "pageSize" = Some (VString (pretty s)) →
  isSafeInteger p → isSafeInteger s →
  let r := getFiltersAndPaginationFromBody {| query := Some q |} in
  page r = of_Z p ∧ pageSize r = of_Z s
  ∧ (isSafeInteger (p - 1) → isSafeInteger ((p - 1) * s) →
     finite_value (skip r) = Some (Qc_of_Z ((p - 1) * s))
     ∧ (1 ≤ p → 0 ≤ s → skip r = of_Z ((p - 1) * s))).
Proof.
  intros Hp Hs Hsp Hss r.
  assert (page r = of_Z p) as Ep.
  { subst r. rewrite page_resolved, (get_lookup _ _ _ Hp). simpl.
    by apply parseInt_pretty. }
  assert (pageSize r = of_Z s) as Es.
  { subst r. rewrite pageSize_resolved, (get_lookup _ _ _ Hs). simpl.
    by apply parseInt_pretty. }
  split; [done |]. split; [done |]. intros Hp1 Hps.
  pose proof (skip_of_integers _ p s Ep Es Hp1) as Ek. fold r in Ek.
  split.
  - by rewrite Ek, finite_value_mul_of_Z.
  - intros Hp1' Hs0. rewrite Ek. apply mul_of_Z_nonneg; [lia | done | done].
Qed.

Lemma numeral_strings_resolve_to_their_integers_witness :
  skip (getFiltersAndPaginationFromBody
          {| query := Some {[ "page" := VString (pretty 12);
                              "pageSize" := VString (pretty 25);
                              "key" := VString "home" ]} |})
  = of_Z 275.
Proof.
  exact (proj2 (proj2 (proj2
           (numeral_strings_resolve_to_their_integers
              {[ "page" := VString (pretty 12);
                 "pageSize" := VString (pretty 25);
                 "key" := VString "home" ]} 12 25 eq_refl eq_refl
              ltac:(safe) ltac:(safe)))
           ltac:(safe) ltac:(safe))
           ltac:(lia) ltac:(lia)).
Defined.

(** X2.  Consecutive pages are contiguous: with the same integer [pageSize]
    [s], the [skip] of page [p + 1] is the [skip] of page [p] plus [s],
    when [p - 1], [p], [(p - 1) * s] and [p * s] are safe integers. *)
Theorem next_page_starts_where_the_page_ends
    (q q' : gmap string value) (p s : Z) :
  q !! "page" = Some (VNumber (of_Z p)) →
  q' !! "page" = Some (VNumber (of_Z (p + 1))) →
  q !! "pageSize" = Some (VNumber (of_Z s)) →
  q' !! "pageSize" = Some (VNumber (of_Z s)) →
  isSafeInteger (p - 1) → isSafeInteger p →
  isSafeInteger ((p - 1) * s) → isSafeInteger (p * s) →
  ∃ k : Z,
    finite_value (skip (getFiltersAndPaginationFromBody {| query := Some q |}))
    = Some (Qc_of_Z k)
    ∧ finite_value
        (skip (getFiltersAndPaginationFromBody {| query := Some q' |}))
      = Some (Qc_of_Z (k + s)).
Proof.
  intros Hp Hp' Hs Hs' Hp1 Hp0 Hps1 Hps. exists ((p - 1) * s). split.
  - rewrite (skip_of_integers {| query := Some q |} p s).
    + by apply finite_value_mul_of_Z.
    + by rewrite page_resolved, (resolved_number _ _ _ _ Hp).
    + by rewrite pageSize_resolved, (resolved_number _ _ _ _ Hs).
    + done.
  - rewrite (skip_of_integers {| query := Some q' |} (p + 1) s).
    + replace (p + 1 - 1) with p by lia.
      rewrite finite_value_mul_of_Z by done. do 2 f_equal. lia.
    + by rewrite page_resolved, (resolved_number _ _ _ _ Hp').
    + by rewrite pageSize_resolved, (resolved_number _ _ _ _ Hs').
    + by replace (p + 1 - 1) with p by lia.
Qed.

Lemma next_page_starts_where_the_page_ends_witness :
  ∃ k : Z,
    finite_value
      (skip (getFiltersAndPaginationFromBody
               {| query := Some {[ "page" := VNumber (of_Z 4);
                                   "pageSize" := VNumber (of_Z 20) ]} |}))
    = Some (Qc_of_Z k)
    ∧ finite_value
        (skip (getFiltersAndPaginationFromBody
                 {| query := Some {[ "page" := VNumber (of_Z 5);
                                     "pageSize" := VNumber (of_Z 20) ]} |}))
      = Some (Qc_of_Z (k + 20)).
Proof.
  exact (next_page_starts_where_the_page_ends
           {[ "page" := VNumber (of_Z 4); "pageSize" := VNumber (of_Z 20) ]}
           {[ "page" := VNumber (of_Z 5); "pageSize" := VNumber (of_Z 20) ]}
           4 20 eq_refl eq_refl eq_refl eq_refl
           ltac:(safe) ltac:(safe) ltac:(safe) ltac:(safe)).
Defined.

(** X3.  The page index is not clamped: an integer [page ≤ 0] with a
    positive integer [pageSize] gives a negative [skip], the integer
    [(page - 1) * pageSize] when this is a safe integer. *)
Theorem page_below_one_gives_negative_skip
    (q : gmap string value) (p s : Z) :
  q !! "page" = Some (VNumber (of_Z p)) →
  q !! "pageSize" = Some (VNumber (of_Z s)) →
  p ≤ 0 → 0 < s → isSafeInteger ((p - 1) * s) →
  let r := getFiltersAndPaginationFromBody {| query := Some q |} in
  skip r = of_Z ((p - 1) * s) ∧ (p - 1) * s ≤ - s ∧ is_negative (skip r) = true.
Proof.
  intros Hp Hs Hp0 Hs0 Hsafe r.
  assert (isSafeInteger (p - 1)) as Hp1.
  { unfold isSafeInteger, MAX_SAFE_INTEGER in *. nia. }
  assert (skip r = of_Z ((p - 1) * s)) as Ek.
  { subst r. rewrite (skip_of_integers {| query := Some q |} p s).
    - apply mul_of_Z_nonzero; [nia | done].
    - by rewrite page_resolved, (resolved_number _ _ _ _ Hp).
    - by rewrite pageSize_resolved, (resolved_number _ _ _ _ Hs).
    - done. }
  split; [done |]. split; [nia |].
  rewrite Ek. unfold of_Z, is_negative. apply bool_decide_eq_true_2.
  rewrite <- Z2Qc_inj_0. apply (proj1 (Z2Qc_inj_lt _ 0)). nia.
Qed.

Lemma page_below_one_gives_negative_skip_witness :
  skip (getFiltersAndPaginationFromBody
          {| query := Some {[ "page" := VNumber (of_Z 0);
                              "pageSize" := VNumber (of_Z 10) ]} |})
  = of_Z (- 10).
Proof.
  exact (proj1 (page_below_one_gives_negative_skip
                  {[ "page" := VNumber (of_Z 0);
                     "pageSize" := VNumber (of_Z 10) ]}
                  0 10 eq_refl eq_refl ltac:(lia) ltac:(lia) ltac:(safe))).
Defined.

(** X4.  A [pageSize] of zero is not rejected: the number of pages of a
    positive [totalItems] is [Infinity], and of zero items is [NaN]. *)
Theorem zero_pageSize_gives_infinitely_many_pages (req : Request) :
  let r := getFiltersAndPaginationFromBody req in
  pageSize r = Finite 0 →
  (∀ t : Z, 0 < t → getNumberOfPages r (of_Z t) = Infinity false)
  ∧ getNumberOfPages r (of_Z 0) = NaN.
Proof.
  intros r Es. split.
  - intros t Ht. subst r. rewrite getNumberOfPages_unfold, Es.
    unfold div, of_Z; simpl.
    rewrite (bool_decide_eq_false_2 (Qc_of_Z t = 0%Qc)).
    2:{ rewrite Qc_of_Z_eq_0. lia. }
    rewrite (bool_decide_eq_false_2 (Qc_of_Z t < 0)%Qc); [done |].
    apply Qcle_not_lt. rewrite <- Z2Qc_inj_0.
    apply (proj1 (Z2Qc_inj_le 0 t)). lia.
  - subst r. by rewrite getNumberOfPages_unfold, Es.
Qed.

Lemma zero_pageSize_gives_infinitely_many_pages_witness :
  getNumberOfPages
    (getFiltersAndPaginationFromBody
       {| query := Some {[ "pageSize" := VString "0" ]} |}) (of_Z 7)
  = Infinity false.
Proof.
  exact (proj1 (zero_pageSize_gives_infinitely_many_pages
                  {| query := Some {[ "pageSize" := VString "0" ]} |}
                  eq_refl) 7 ltac:(lia)).
Defined.

(** X5.  The last page is not empty and nothing follows it: for a positive
    integer [pageSize] [s] and [t > 0] items, both safe integers,
    [getNumberOfPages] is an integer [n ≥ 1], and the [skip] [k] of page [n]
    satisfies [k < t ≤ k + s]. *)
Theorem last_page_holds_the_last_items
    (q : gmap string value) (s t : Z) :
  q !! "pageSize" = Some (VNumber (of_Z s)) → 0 < s → 0 < t →
  isSafeInteger s → isSafeInteger t →
  ∃ n k : Z,
    getNumberOfPages (getFiltersAndPaginationFromBody {| query := Some q |})
      (of_Z t) = of_Z n
    ∧ 1 ≤ n
    ∧ skip (getFiltersAndPaginationFromBody
              {| query := Some (<["page" := VNumber (of_Z n)]> q) |})
      = of_Z k
    ∧ k = (n - 1) * s
    ∧ k < t ≤ k + s.
Proof.
  intros Hs Hs0 Ht0 Hss Hst.
  destruct (ceiling_exists t s Hs0) as [n [Hlo Hhi]].
  assert (1 ≤ n) as Hn by nia.
  exists n, ((n - 1) * s).
  split; [| split; [done | split; [| split; [done | lia]]]].
  - rewrite getNumberOfPages_unfold, pageSize_resolved,
      (resolved_number _ _ _ _ Hs).
    apply ceil_div_of_Z; [lia | done | done | done | done].
  - rewrite (skip_of_integers _ n s).
    + apply mul_of_Z_nonneg; [lia | lia |].
      unfold isSafeInteger, MAX_SAFE_INTEGER in *. nia.
    + rewrite page_resolved. apply resolved_number.
      by rewrite lookup_insert_eq.
    + rewrite pageSize_resolved. apply resolved_number.
      by rewrite lookup_insert_ne.
    + unfold isSafeInteger, MAX_SAFE_INTEGER in *. nia.
Qed.

Lemma last_page_holds_the_last_items_witness :
  ∃ n k : Z,
    getNumberOfPages
      (getFiltersAndPaginationFromBody
         {| query := Some {[ "pageSize" := VNumber (of_Z 10) ]} |})
      (of_Z 95) = of_Z n
    ∧ 1 ≤ n
    ∧ skip (getFiltersAndPaginationFromBody
              {| query := Some (<["page" := VNumber (of_Z n)]>
                                  {[ "pageSize" := VNumber (of_Z 10) ]}) |})
      = of_Z k
    ∧ k = (n - 1) * 10
    ∧ k < 95 ≤ k + 10.
Proof.
  exact (last_page_holds_the_last_items
           {[ "pageSize" := VNumber (of_Z 10) ]} 10 95
           eq_refl ltac:(lia) ltac:(lia) ltac:(safe) ltac:(safe)).
Defined.

(** X6.  A [page] or [pageSize] that is neither a string nor a number (a
    repeated parameter arrives as an array) is dropped: the default is used,
    and the property does not reach the filters either. *)
Theorem unusable_pagination_values_are_dropped
    (q : gmap string value) (v : value) :
  (∀ s, v ≠ VString s) → (∀ n, v ≠ VNumber n) →
  let r := getFiltersAndPaginationFromBody {| query := Some q |} in
  (q !! "page" = Some v →
   page r = DEFAULT_PAGE ∧ filters r !! "page" = None)
  ∧ (q !! "pageSize" = Some v →
     pageSize r = DEFAULT_PAGE_SIZE ∧ filters r !! "pageSize" = None).
Proof.
  intros Hstr Hnum r. subst r. rewrite filters_rest. split; intros E.
  - split; [| by rewrite lookup_delete_eq].
    rewrite page_resolved, (get_lookup _ _ _ E).
    destruct v; try done; [by destruct (Hnum n) | by destruct (Hstr s)].
  - split; [| by rewrite lookup_delete_ne, lookup_delete_eq].
    rewrite pageSize_resolved, (get_lookup _ _ _ E).
    destruct v; try done; [by destruct (Hnum n) | by destruct (Hstr s)].
Qed.

Lemma unusable_pagination_values_are_dropped_witness :
  page (getFiltersAndPaginationFromBody
          {| query := Some {[ "page" := VArray [VString "2"; VString "3"];
                              "key" := VString "home" ]} |})
  = DEFAULT_PAGE.
Proof.
  exact (proj1 (proj1 (unusable_pagination_values_are_dropped
                         {[ "page" := VArray [VString "2"; VString "3"];
                            "key" := VString "home" ]}
                         (VArray [VString "2"; VString "3"])
                         ltac:(done) ltac:(done)) eq_refl)).
Defined.

(** X24.  Beyond the safe integers the extractor computes with rounded
    numbers.  With [page = 94906268] and [pageSize = 94906267] the returned
    [skip] is 9007199515875288, one less than the product; with
    [page = -94906266] it is the negative of that.  With [pageSize = 3] the
    pages 3002399751580331 and 3002399751580332 get the [skip]s
    9007199254740990 and 9007199254740992, two apart.  With
    [pageSize = 4503599627370497], [getNumberOfPages(13510798882111492)] is
    3, although three pages hold fewer items.  The string
    ["9007199254740993"] resolves to 9007199254740992. *)
Theorem arithmetic_beyond_the_safe_integers_is_rounded :
  skip (getFiltersAndPaginationFromBody
          {| query := Some {[ "page" := VNumber (of_Z 94906268);
                              "pageSize" := VNumber (of_Z 94906267) ]} |})
  = of_Z 9007199515875288
  ∧ (94906268 - 1) * 94906267 = 9007199515875289
  ∧ skip (getFiltersAndPaginationFromBody
            {| query := Some {[ "page" := VNumber (of_Z (- 94906266));
                                "pageSize" := VNumber (of_Z 94906267) ]} |})
    = of_Z (- 9007199515875288)
  ∧ skip (getFiltersAndPaginationFromBody
            {| query := Some {[ "page" := VNumber (of_Z 3002399751580331);
                                "pageSize" := VNumber (of_Z 3) ]} |})
    = of_Z 9007199254740990
  ∧ skip (getFiltersAndPaginationFromBody
            {| query := Some {[ "page" := VNumber (of_Z 3002399751580332);
                                "pageSize" := VNumber (of_Z 3) ]} |})
    = of_Z 9007199254740992
  ∧ getNumberOfPages
      (getFiltersAndPaginationFromBody
         {| query := Some {[ "pageSize" :=
                               VNumber (of_Z 4503599627370497) ]} |})
      (of_Z 13510798882111492)
    = of_Z 3
  ∧ 3 * 4503599627370497 < 13510798882111492
  ∧ page (getFiltersAndPaginationFromBody
            {| query := Some {[ "page" := VString "9007199254740993" ]} |})
    = of_Z 9007199254740992.
Proof.
  split; [evaluate |]. split; [done |]. split; [evaluate |].
  split; [evaluate |]. split; [evaluate |]. split; [evaluate |].
  split; [done | evaluate].
Qed.

End PaginationEdgeFacts.

(** ** The organization service: deletion, update, successive plan updates *)
Module OrganizationMaintenanceFacts.
Import Js Backend OrganizationService OrganizationMaintenance.



Lemma updatePlan_returned (organization doc d1 : Organization)
    (p : gmap string value) (c c1 : gmap string Organization) :
  c !! ToString (id organization) = Some doc →
  updatePlan organization p c = (Return d1, c1) →
  is_ObjectId_hex (ToString (id organization)) = true
  ∧ d1 = set_plan (PlanDocument (spread (previous_plan organization) p)) doc
  ∧ c1 = <[ToString (id organization) := d1]> c.
Proof.
  intros Hdoc H1.
  destruct (is_ObjectId_hex (ToString (id organization))) eqn:Hcast.
  - rewrite (OrganizationFacts.updatePlan_cast _ _ _ Hcast), Hdoc in H1.
    simpl in H1. by injection H1 as <- <-.
  - unfold updatePlan, updateOne_set_plan in H1. rewrite Hcast in H1.
    discriminate H1.
Qed.

(** X8.  Partial plan updates accumulate: when the documents are filed
    under their own identifier, updating the plan with [p1] and then updating
    the returned document with [p2] gives the document and the collection
    that one update with [{ ...p1, ...p2 }] gives. *)
Theorem updatePlan_twice_is_updatePlan_of_the_merge
    (organization doc d1 : Organization) (p1 p2 : gmap string value)
    (c c1 : gmap string Organization) :
  c !! ToString (id organization) = Some doc →
  ToString (id doc) = ToString (id organization) →
  updatePlan organization p1 c = (Return d1, c1) →
  updatePlan d1 p2 c1 = updatePlan organization (spread p1 p2) c.
Proof.
  intros Hdoc Hkey H1.
  destruct (updatePlan_returned _ _ _ _ _ _ Hdoc H1) as (Hcast & -> & ->).
  rewrite !OrganizationFacts.updatePlan_cast; simpl; rewrite ?Hkey; try done.
  rewrite Hdoc, lookup_insert_eq. simpl. rewrite insert_insert_eq.
  unfold set_plan, previous_plan, spread; simpl.
  by rewrite (assoc_L (∪)).
Qed.

Lemma updatePlan_twice_is_updatePlan_of_the_merge_witness :
  (updatePlan
     (set_plan (PlanDocument {[ "type" := VString "PREMIUM";
                                "status" := VString "active" ]})
               Samples.free_org)
     {[ "status" := VString "canceled" ]}
     {[ "65a0000000000000000000f1" :=
          set_plan (PlanDocument {[ "type" := VString "PREMIUM";
                                    "status" := VString "active" ]})
                   Samples.free_org ]}).1
  = (updatePlan Samples.free_org
       (spread {[ "type" := VString "PREMIUM" ]}
               {[ "status" := VString "canceled" ]})
       Samples.registry).1.
Proof.
  exact (f_equal fst
           (updatePlan_twice_is_updatePlan_of_the_merge
              Samples.free_org Samples.free_org _
              {[ "type" := VString "PREMIUM" ]}
              {[ "status" := VString "canceled" ]}
              Samples.registry _ eq_refl eq_refl eq_refl)).
Defined.

(** X9.  Repeating a plan update changes nothing: updating the returned
    document with the same partial plan returns the same document and leaves
    the collection as the first update left it. *)
Theorem updatePlan_is_idempotent
    (organization doc d1 : Organization) (p : gmap string value)
    (c c1 : gmap string Organization) :
  c !! ToString (id organization) = Some doc →
  ToString (id doc) = ToString (id organization) →
  updatePlan organization p c = (Return d1, c1) →
  updatePlan d1 p c1 = (Return d1, c1).
Proof.
  intros Hdoc Hkey H1.
  destruct (updatePlan_returned _ _ _ _ _ _ Hdoc H1) as (Hcast & -> & ->).
  rewrite OrganizationFacts.updatePlan_cast; simpl; rewrite ?Hkey; try done.
  rewrite lookup_insert_eq. simpl. rewrite insert_insert_eq.
  unfold set_plan, previous_plan, spread; simpl.
  by rewrite (assoc_L (∪)), (idemp_L (∪)).
Qed.

Lemma updatePlan_is_idempotent_witness :
  updatePlan
    (set_plan (PlanDocument {[ "type" := VString "PREMIUM";
                               "status" := VString "active" ]})
              Samples.free_org)
    {[ "type" := VString "PREMIUM" ]}
    {[ "65a0000000000000000000f1" :=
         set_plan (PlanDocument {[ "type" := VString "PREMIUM";
                                   "status" := VString "active" ]})
                  Samples.free_org ]}
  = (Return
       (set_plan (PlanDocument {[ "type" := VString "PREMIUM";
                                  "status" := VString "active" ]})
                 Samples.free_org),
     {[ "65a0000000000000000000f1" :=
          set_plan (PlanDocument {[ "type" := VString "PREMIUM";
                                    "status" := VString "active" ]})
                   Samples.free_org ]}).
Proof.
  exact (updatePlan_is_idempotent
           Samples.free_org Samples.free_org _
           {[ "type" := VString "PREMIUM" ]}
           Samples.registry _ eq_refl eq_refl eq_refl).
Defined.

Section Update.
Context `{imports : Imports} `{update : UpdateImports}.


End Update.

End OrganizationMaintenanceFacts.

(** ** The tag controller: what holds on every path *)
Module TagHandlerFacts.
Import Js Backend TagController TagTrace.

Section Controller.
Context `{imports : Imports}.

Ltac run_handler :=
  unfold try_catch, mbind, M_bind, mret, M_ret, ret, bind, getTagById,
    createTag, updateTagById, deleteTagById, call, handleGenericErrorResponse,
    handleAppErrorResponse, res_json, logger_info, emit.

(** Splits the goal along every test the handler makes. *)
Ltac branches :=
  repeat (simpl;
          match goal with
          | |- context [match ?x with _ => _ end] =>
              lazymatch x with
              | context [match _ with _ => _ end] => fail
              | _ => destruct x eqn:?
              end
          end); simpl.

Ltac appended :=
  simpl; rewrite <- ?app_assoc; simpl;
  eexists _, _; split; [reflexivity | reflexivity].

(** X11.  The three handlers never throw: whatever the request, the session
    and the tag service do, a thrown error is caught and the handler
    returns. *)
Theorem tag_handlers_never_throw (locals : Locals) (w : World) :
  (∀ req, (addTag req locals w).1 = Return ())
  ∧ (∀ req, (updateTag req locals w).1 = Return ())
  ∧ (∀ req, (deleteTag req locals w).1 = Return ()).
Proof.
  split; [| split]; intros req.
  - unfold addTag. run_handler. by branches.
  - unfold updateTag. run_handler. by branches.
  - unfold deleteTag. run_handler. by branches.
Qed.

(** X12.  [updateTag] and [deleteTag] extend the trace and write exactly
    one response, on every path. *)
Theorem updateTag_and_deleteTag_answer_exactly_once
    (locals : Locals) (w : World) :
  (∀ req, ∃ new response,
     trace (updateTag req locals w).2 = trace w ++ new
     ∧ responses new = [response])
  ∧ (∀ req, ∃ new response,
       trace (deleteTag req locals w).2 = trace w ++ new
       ∧ responses new = [response]).
Proof.
  split; intros req.
  - unfold updateTag. run_handler. branches; appended.
  - unfold deleteTag. run_handler. branches; appended.
Qed.

(** X13.  [addTag] writes one response, except that a request without
    [tagData] in a session with user, organization and project gets two: the
    [PROJECT_DATA_NOT_FOUND] answer and then the answer of the path the
    handler goes on with. *)
Theorem addTag_answers_once_or_twice
    (req : AddTagRequest) (locals : Locals) (w : World) :
  ∃ new response,
    trace (addTag req locals w).2 = trace w ++ new
    ∧ responses new
      = match user locals, organization locals, project locals, add_body req
        with
        | Some _, Some _, Some _, None =>
            [GenericErrorResponse PROJECT_DATA_NOT_FOUND None; response]
        | _, _, _, _ => [response]
        end.
Proof. unfold addTag. run_handler. branches; appended. Qed.

Ltac tidy :=
  repeat match goal with
         | H : negb _ = false |- _ => apply negb_false_iff in H
         | H : bool_decide (_ ≠ _) = false |- _ =>
             apply bool_decide_eq_false, dec_stable in H
         end.

(** From the trace equation and the membership of a call among the new
    events, to the equation of that call with one the handler made. *)
Ltac find_call Htrace Hin :=
  rewrite <- ?app_assoc in Htrace; apply app_inv_head in Htrace;
  rewrite <- Htrace in Hin; simpl in Hin; unfold refused in Hin;
  repeat first
    [ apply elem_of_nil in Hin; contradiction
    | apply elem_of_cons in Hin as [Hin | Hin]; [try discriminate Hin |] ].

(** X14.  [deleteTagById] and [updateTagById] are called only for the tag
    of the request, after it has been fetched, has passed the permission
    check ([tag:admin], respectively [tag:write]) and has been found to carry
    the identifier of the caller's organization; [updateTagById] receives the
    four properties of the body and nothing else. *)
Theorem tag_is_changed_only_after_both_checks (locals : Locals) (w : World) :
  (∀ req new tagId,
     trace (deleteTag req locals w).2 = trace w ++ new →
     Called (DeleteTagById tagId) ∈ new →
     ∃ org tag db',
       is_Some (user locals) ∧ organization locals = Some org
       ∧ delete_tagId req = Some tagId
       ∧ tagService_getTagById tagId (store w) = (Return tag, db')
       ∧ hasPermission (roles locals) "tag:admin"
           {| locals := locals; targetTags := [tag] |} = true
       ∧ ToString (organizationId tag) = ToString (organization_id org))
  ∧ (∀ req new tagId patch,
       trace (updateTag req locals w).2 = trace w ++ new →
       Called (UpdateTagById tagId patch) ∈ new →
       ∃ org tag db',
         is_Some (user locals) ∧ organization locals = Some org
         ∧ tagId = update_tagId req
         ∧ patch = {| patch__id := tagId;
                      patch_name := body_name (update_body req);
                      patch_key := body_key (update_body req);
                      patch_description := body_description (update_body req);
                      patch_instructions :=
                        body_instructions (update_body req) |}
         ∧ tagService_getTagById tagId (store w) = (Return tag, db')
         ∧ hasPermission (roles locals) "tag:write"
             {| locals := locals; targetTags := [tag] |} = true
         ∧ ToString (organizationId tag) = ToString (organization_id org)).
Proof.
  split.
  - intros req new tagId. unfold deleteTag. run_handler.
    branches; intros Htrace Hin; find_call Htrace Hin;
      injection Hin as ->; subst; tidy; eauto 10.
  - intros req new tagId patch. unfold updateTag. run_handler.
    branches; intros Htrace Hin; find_call Htrace Hin;
      injection Hin as -> ->; subst; tidy; eauto 10.
Qed.

(** X15.  [createTag] is called only with the tag assembled from the
    session and the body, and only after [hasPermission] has accepted that
    tag for [tag:admin]. *)
Theorem tag_is_created_only_after_the_permission_check
    (req : AddTagRequest) (locals : Locals) (w : World)
    (new : list Event) (tag : Tag) :
  trace (addTag req locals w).2 = trace w ++ new →
  Called (CreateTag tag) ∈ new →
  ∃ u org proj,
    user locals = Some u ∧ organization locals = Some org
    ∧ project locals = Some proj
    ∧ tag = assemble_tag u org proj (add_body req)
    ∧ hasPermission (roles locals) "tag:admin"
        {| locals := locals; targetTags := [tag] |} = true.
Proof.
  unfold addTag. run_handler.
  branches; intros Htrace Hin; find_call Htrace Hin;
    injection Hin as ->; subst; tidy; eauto 10.
Qed.

(** X16.  A tag that cannot be fetched is answered with the error the
    service threw: [updateTag] and [deleteTag] make no other call, do not
    consult [hasPermission], and leave the store as the lookup left it. *)
Theorem lookup_error_is_forwarded
    (locals : Locals) (w : World) (u : User) (org : Organization)
    (tagId : Id) (error : AppError) (db' : Db) :
  user locals = Some u → organization locals = Some org →
  tagService_getTagById tagId (store w) = (Throw error, db') →
  (∀ body,
     updateTag {| update_tagId := tagId; update_body := body |} locals w
     = (Return (),
        {| store := db';
           trace := trace w ++ [Called (GetTagById tagId);
                                Responded (AppErrorResponse error)] |}))
  ∧ (falsy_id (Some tagId) = false →
     deleteTag {| delete_tagId := Some tagId |} locals w
     = (Return (),
        {| store := db';
           trace := trace w ++ [Called (GetTagById tagId);
                                Responded (AppErrorResponse error)] |})).
Proof.
  intros Hu Ho Hget. split.
  - intros body. unfold updateTag. rewrite Hu, Ho. run_handler. simpl.
    rewrite Hget. simpl. by rewrite <- app_assoc.
  - intros Htruthy. unfold deleteTag. rewrite Hu, Ho. cbn [delete_tagId].
    rewrite Htruthy. run_handler. simpl.
    rewrite Hget. simpl. by rewrite <- app_assoc.
Qed.

(** X17.  When the fetched tag has passed both checks, [deleteTag] calls
    [deleteTagById] once with the identifier of the request.  A deleted tag
    is logged and answered in its public shape; a tag that is no longer there
    ([null]) is answered [TAG_NOT_FOUND] with the identifier; a thrown error
    is answered as it is. *)
Theorem deleteTag_deletes_the_checked_tag
    (locals : Locals) (w : World) (u : User) (org : Organization)
    (tagId : Id) (tag : Tag) (db1 : Db) :
  user locals = Some u → organization locals = Some org →
  falsy_id (Some tagId) = false →
  tagService_getTagById tagId (store w) = (Return tag, db1) →
  hasPermission (roles locals) "tag:admin"
    {| locals := locals; targetTags := [tag] |} = true →
  ToString (organizationId tag) = ToString (organization_id org) →
  let result := deleteTag {| delete_tagId := Some tagId |} locals w in
  let before := trace w ++ [Called (GetTagById tagId);
                            Called (DeleteTagById tagId)] in
  (∀ deleted db2,
     tagService_deleteTagById tagId db1 = (Return (Some deleted), db2) →
     ∃ body,
       result
       = (Return (),
          {| store := db2;
             trace := before ++
               [Logged ("Tag deleted: " +:+ ToString_opt (id deleted));
                Responded (Json body)] |})
       ∧ response_data body = mapTagToAPI deleted)
  ∧ (∀ db2,
       tagService_deleteTagById tagId db1 = (Return None, db2) →
       result
       = (Return (),
          {| store := db2;
             trace := before ++
               [Responded (GenericErrorResponse TAG_NOT_FOUND
                             (Some {[ "tagId" := id_value tagId ]}))] |}))
  ∧ (∀ error db2,
       tagService_deleteTagById tagId db1 = (Throw error, db2) →
       result
       = (Return (),
          {| store := db2;
             trace := before ++ [Responded (AppErrorResponse error)] |})).
Proof.
  intros Hu Ho Htruthy Hget Hallow Hsame result before.
  subst result before. unfold deleteTag. rewrite Hu, Ho.
  cbn [delete_tagId]. rewrite Htruthy. run_handler. simpl. rewrite Hget. simpl.
  rewrite Hallow. simpl. rewrite bool_decide_eq_false_2 by (by intros ?).
  simpl. split; [| split].
  - intros deleted db2 ->. simpl. eexists.
    split; [by rewrite <- !app_assoc | reflexivity].
  - intros db2 ->. simpl. by rewrite <- !app_assoc.
  - intros error db2 ->. simpl. by rewrite <- !app_assoc.
Qed.

(** X18.  When the fetched tag has passed both checks, [updateTag] calls
    [updateTagById] once, with the identifier of the request and the four
    properties [name], [key], [description], [instructions] of the body, and
    answers the updated tag in its public shape, or the error the service
    threw. *)
Theorem updateTag_updates_the_checked_tag
    (locals : Locals) (w : World) (u : User) (org : Organization)
    (tagId : Id) (body : UpdateTagBody) (tag : Tag) (db1 : Db) :
  user locals = Some u → organization locals = Some org →
  tagService_getTagById tagId (store w) = (Return tag, db1) →
  hasPermission (roles locals) "tag:write"
    {| locals := locals; targetTags := [tag] |} = true →
  ToString (organizationId tag) = ToString (organization_id org) →
  let result :=
    updateTag {| update_tagId := tagId; update_body := body |} locals w in
  let patch := {| patch__id := tagId;
                  patch_name := body_name body;
                  patch_key := body_key body;
                  patch_description := body_description body;
                  patch_instructions := body_instructions body |} in
  let before := trace w ++ [Called (GetTagById tagId);
                            Called (UpdateTagById tagId patch)] in
  (∀ updated db2,
     tagService_updateTagById tagId patch db1 = (Return updated, db2) →
     ∃ response,
       result
       = (Return (),
          {| store := db2;
             trace := before ++ [Responded (Json response)] |})
       ∧ response_data response = mapTagToAPI updated)
  ∧ (∀ error db2,
       tagService_updateTagById tagId patch db1 = (Throw error, db2) →
       result
       = (Return (),
          {| store := db2;
             trace := before ++ [Responded (AppErrorResponse error)] |})).
Proof.
  intros Hu Ho Hget Hallow Hsame result patch before.
  subst result before. unfold updateTag. rewrite Hu, Ho. run_handler. simpl.
  rewrite Hget. simpl. rewrite Hallow. simpl.
  rewrite bool_decide_eq_false_2 by (by intros ?). simpl. fold patch.
  split.
  - intros updated db2 ->. simpl. eexists.
    split; [by rewrite <- !app_assoc | reflexivity].
  - intros error db2 ->. simpl. by rewrite <- !app_assoc.
Qed.

(** X19.  [addTag] does not compare the organization of the new tag with
    the organization of the session: a body that carries [organizationId]
    (or [creatorId], [projectId]) overrides the value of the session, and
    when [hasPermission] accepts the tag, [createTag] receives it with the
    body's value; the created tag is answered in its public shape. *)
Theorem addTag_creates_with_the_organization_of_the_body
    (locals : Locals) (w : World) (u : User) (org : Organization)
    (proj : Project) (data : TagCreationData) :
  user locals = Some u → organization locals = Some org →
  project locals = Some proj →
  let tag := assemble_tag u org proj (Some data) in
  hasPermission (roles locals) "tag:admin"
    {| locals := locals; targetTags := [tag] |} = true →
  let result := addTag {| add_body := Some data |} locals w in
  organizationId tag
  = default (organization_id org) (data_organizationId data)
  ∧ creatorId tag = default (user_id u) (data_creatorId data)
  ∧ projectId tag = default (project_id proj) (data_projectId data)
  ∧ (∀ created db2,
       tagService_createTag tag (store w) = (Return created, db2) →
       ∃ response,
         result
         = (Return (),
            {| store := db2;
               trace := trace w ++ [Called (CreateTag tag);
                                    Responded (Json response)] |})
         ∧ response_data response = mapTagToAPI created)
  ∧ (∀ error db2,
       tagService_createTag tag (store w) = (Throw error, db2) →
       result
       = (Return (),
          {| store := db2;
             trace := trace w ++ [Called (CreateTag tag);
                                  Responded (AppErrorResponse error)] |})).
Proof.
  intros Hu Ho Hp tag Hallow result. subst result.
  split; [done |]. split; [done |]. split; [done |].
  unfold addTag. rewrite Hu, Ho, Hp. run_handler. simpl. fold tag.
  rewrite Hallow. simpl. split.
  - intros created db2 ->. simpl. eexists.
    split; [by rewrite <- !app_assoc | reflexivity].
  - intros error db2 ->. simpl. by rewrite <- !app_assoc.
Qed.

End Controller.

Lemma tag_is_created_only_after_the_permission_check_witness :
  ∃ u org proj,
    user (Samples.session ["tag:admin"]) = Some u
    ∧ organization (Samples.session ["tag:admin"]) = Some org
    ∧ project (Samples.session ["tag:admin"]) = Some proj
    ∧ assemble_tag Samples.alice Samples.acme Samples.website
        (Some MoreSamples.foreign_body)
      = assemble_tag u org proj (Some MoreSamples.foreign_body)
    ∧ hasPermission (Imports := Samples.tag_imports Samples.role_lists)
        (roles (Samples.session ["tag:admin"])) "tag:admin"
        {| locals := Samples.session ["tag:admin"];
           targetTags :=
             [assemble_tag Samples.alice Samples.acme Samples.website
                (Some MoreSamples.foreign_body)] |} = true.
Proof.
  apply (tag_is_created_only_after_the_permission_check
           (imports := Samples.tag_imports Samples.role_lists)
           {| add_body := Some MoreSamples.foreign_body |}
           (Samples.session ["tag:admin"])
           (Samples.world Samples.role_lists []) _ _ eq_refl).
  simpl. apply list_elem_of_here.
Defined.

Lemma lookup_error_is_forwarded_witness :
  deleteTag (imports := Samples.tag_imports Samples.role_lists)
    {| delete_tagId := Some (IdString "tag-9") |}
    (Samples.session ["tag:admin"]) (Samples.world Samples.role_lists [])
  = (Return (),
     Samples.world Samples.role_lists
       [Called (GetTagById (IdString "tag-9"));
        Responded
          (@AppErrorResponse (Samples.tag_imports Samples.role_lists)
             {| errorKey := TAG_NOT_FOUND;
                details := {[ "tagId" := VString "tag-9" ]} |})]).
Proof.
  exact (proj2 (lookup_error_is_forwarded
                  (imports := Samples.tag_imports Samples.role_lists)
                  (Samples.session ["tag:admin"])
                  (Samples.world Samples.role_lists [])
                  Samples.alice Samples.acme (IdString "tag-9") _ _
                  eq_refl eq_refl eq_refl) eq_refl).
Defined.

Lemma deleteTag_deletes_the_checked_tag_witness :
  ∃ body,
    deleteTag (imports := Samples.tag_imports Samples.role_lists)
      {| delete_tagId := Some (IdString "tag-2") |}
      (Samples.session ["tag:admin"]) (MoreSamples.own_world [])
    = (Return (),
       @Build_World (Samples.tag_imports Samples.role_lists)
         (delete "tag-2" MoreSamples.own_store)
         [Called (GetTagById (IdString "tag-2"));
          Called (DeleteTagById (IdString "tag-2"));
          Logged "Tag deleted: tag-2";
          Responded (Json body)])
    ∧ response_data body = MoreSamples.own_tag.
Proof.
  exact (proj1 (deleteTag_deletes_the_checked_tag
                  (imports := Samples.tag_imports Samples.role_lists)
                  (Samples.session ["tag:admin"]) (MoreSamples.own_world [])
                  Samples.alice Samples.acme (IdString "tag-2")
                  MoreSamples.own_tag MoreSamples.own_store
                  eq_refl eq_refl eq_refl eq_refl eq_refl eq_refl)
               MoreSamples.own_tag _ eq_refl).
Defined.

Lemma updateTag_updates_the_checked_tag_witness :
  ∃ response,
    updateTag (imports := Samples.tag_imports Samples.role_lists)
      {| update_tagId := IdString "tag-2";
         update_body := {| body_name := Some "Latest"; body_key := None;
                           body_description := None;
                           body_instructions := None |} |}
      (Samples.session ["tag:write"]) (MoreSamples.own_world [])
    = (Return (),
       @Build_World (Samples.tag_imports Samples.role_lists)
         (<["tag-2" :=
              Samples.apply_patch
                {| patch__id := IdString "tag-2";
                   patch_name := Some "Latest"; patch_key := None;
                   patch_description := None; patch_instructions := None |}
                MoreSamples.own_tag]> MoreSamples.own_store)
         [Called (GetTagById (IdString "tag-2"));
          Called (UpdateTagById (IdString "tag-2")
                    {| patch__id := IdString "tag-2";
                       patch_name := Some "Latest"; patch_key := None;
                       patch_description := None;
                       patch_instructions := None |});
          Responded (Json response)])
    ∧ name (response_data response) = Some "Latest".
Proof.
  destruct (proj1 (updateTag_updates_the_checked_tag
                     (imports := Samples.tag_imports Samples.role_lists)
                     (Samples.session ["tag:write"])
                     (MoreSamples.own_world [])
                     Samples.alice Samples.acme (IdString "tag-2")
                     {| body_name := Some "Latest"; body_key := None;
                        body_description := None;
                        body_instructions := None |}
                     MoreSamples.own_tag MoreSamples.own_store
                     eq_refl eq_refl eq_refl eq_refl eq_refl)
                  _ _ eq_refl) as (response & E & Hdata).
  exists response. split; [exact E |]. by rewrite Hdata.
Defined.

Lemma addTag_creates_with_the_organization_of_the_body_witness :
  ∃ response,
    addTag (imports := Samples.tag_imports Samples.role_lists)
      {| add_body := Some MoreSamples.foreign_body |}
      (Samples.session ["tag:admin"]) (Samples.world Samples.role_lists [])
    = (Return (),
       @Build_World (Samples.tag_imports Samples.role_lists)
         (<["tag-new" :=
              Samples.with_id (IdString "tag-new")
                (assemble_tag Samples.alice Samples.acme Samples.website
                   (Some MoreSamples.foreign_body))]> Samples.tag_store)
         [Called (CreateTag
                    (assemble_tag Samples.alice Samples.acme Samples.website
                       (Some MoreSamples.foreign_body)));
          Responded (Json response)])
    ∧ organizationId (response_data response)
      = IdObjectId "65a000000000000000000002".
Proof.
  destruct (proj1 (proj2 (proj2 (proj2
             (addTag_creates_with_the_organization_of_the_body
                (imports := Samples.tag_imports Samples.role_lists)
                (Samples.session ["tag:admin"])
                (Samples.world Samples.role_lists [])
                Samples.alice Samples.acme Samples.website
                MoreSamples.foreign_body eq_refl eq_refl eq_refl eq_refl))))
             _ _ eq_refl) as (response & E & Hdata).
  exists response. split; [exact E |]. by rewrite Hdata.
Defined.

End TagHandlerFacts.

(** ** [getTags] *)
Module TagListingFacts.
Import Js Backend Pagination TagController TagListing.

Section Listing.
Context `{listing : ListingImports}.

Ltac branches :=
  repeat (simpl;
          match goal with
          | |- context [match ?x with _ => _ end] =>
              lazymatch x with
              | context [match _ with _ => _ end] => fail
              | _ => destruct x eqn:?
              end
          end); simpl.

(** X20.  [getTags] never throws and answers exactly once, whatever the
    session and the tag service do. *)
Theorem getTags_answers_exactly_once
    (req : Request) (locals : Locals) (w : ListingWorld) :
  (getTags req locals w).1 = Return ()
  ∧ ∃ new response,
      listing_trace (getTags req locals w).2 = listing_trace w ++ new
      ∧ answers new = [response].
Proof.
  unfold getTags, ask, answer. branches;
    (split; [done |]); simpl; rewrite <- ?app_assoc; simpl;
    eexists _, _; split; reflexivity.
Qed.

(** X21.  [getTags] fetches the tags before it checks the permission, and
    goes on only when [hasPermission] accepts the fetched tags for
    [tag:read]: the count is queried, and a page is answered, only then.  The
    count is queried with the filters of the extractor, on the store the
    fetch left.  A page is answered only when that count returned: its
    [totalItems] is the number the count returned, its [totalPages] is
    [getNumberOfPages] of that number, it carries the fetched tags in their
    public shape and the [page] and [pageSize] of the extractor, and the
    store is left as the count left it. *)
Theorem getTags_counts_and_answers_only_when_permitted
    (req : Request) (locals : Locals) (w : ListingWorld)
    (new : list ListingEvent) :
  let r := getTagFiltersAndPagination req locals in
  listing_trace (getTags req locals w).2 = listing_trace w ++ new →
  (∀ e, e ∈ new →
     (∃ f, e = Queried (CountTags f)) ∨ (∃ body, e = Answered (Page body)) →
     ∃ tags db',
       tagService_findTags (filters r) (skip r) (pageSize r) (listing_store w)
       = (Return tags, db')
       ∧ hasPermission (roles locals) "tag:read"
           {| locals := locals; targetTags := tags |} = true
       ∧ (∀ f, e = Queried (CountTags f) → f = filters r)
       ∧ ∀ body, e = Answered (Page body) →
           ∃ total db'',
             tagService_countTags (filters r) db' = (Return total, db'')
             ∧ totalItems body = total
             ∧ totalPages body = getNumberOfPages r total
             ∧ data body = mapTagsToAPI tags
             ∧ response_page body = page r
             ∧ response_pageSize body = pageSize r
             ∧ listing_store (getTags req locals w).2 = db'').
Proof.
  intros r. subst r. unfold getTags, ask, answer.
  branches; intros Htrace ev Hin Hkind;
    rewrite <- ?app_assoc in Htrace; apply app_inv_head in Htrace;
    rewrite <- Htrace in Hin; simpl in Hin;
    repeat (apply elem_of_cons in Hin as [-> | Hin]);
    try (by apply elem_of_nil in Hin);
    try (by destruct Hkind as [[? [=]] | [? [=]]]);
    repeat match goal with
           | H : negb _ = false |- _ => apply negb_false_iff in H
           end;
    eexists _, _; (split; [done |]); (split; [done |]);
    (split; [by intros ? [=] |]);
    intros body [=]; subst; try done;
    eexists _, _; (split; [eassumption |]); done.
Qed.

End Listing.

Lemma getTags_counts_and_answers_only_when_permitted_witness :
  ∃ tags db',
    tagService_findTags (ListingImports := MoreSamples.listing_imports)
      ∅ (of_Z 0) (of_Z 1000) MoreSamples.own_store = (Return tags, db')
    ∧ hasPermission (Imports := Samples.tag_imports Samples.role_lists)
        ["tag:read"] "tag:read"
        {| locals := Samples.session ["tag:read"]; targetTags := tags |}
      = true
    ∧ ∃ db'',
        tagService_countTags (ListingImports := MoreSamples.listing_imports)
          ∅ db' = (Return (of_Z 1), db'').
Proof.
  set (r := getFiltersAndPaginationFromBody {| query := None |}).
  set (body :=
         {| data := [MoreSamples.own_tag];
            response_page := page r;
            response_pageSize := pageSize r;
            totalPages :=
              getNumberOfPages r (of_Z (Z.of_nat (size MoreSamples.own_store)));
            totalItems := of_Z (Z.of_nat (size MoreSamples.own_store)) |}
         : PaginatedResponse
             (TagAPI (Imports := Samples.tag_imports Samples.role_lists))).
  destruct (getTags_counts_and_answers_only_when_permitted
              (listing := MoreSamples.listing_imports)
              {| query := None |} (Samples.session ["tag:read"])
              MoreSamples.listing_world
              [Queried (FindTags (filters r) (skip r) (pageSize r));
               Queried (CountTags (filters r));
               Answered (Page body)]
              eq_refl
              (Answered (Page body))
              ltac:(apply list_elem_of_further, list_elem_of_further,
                          list_elem_of_here)
              (or_intror (ex_intro _ body eq_refl)))
    as (tags & db' & Hfound & Hallowed & _ & Hpage).
  destruct (Hpage body eq_refl) as (total & db'' & Hcount & Htotal & _).
  exists tags, db'. split; [exact Hfound |]. split; [exact Hallowed |].
  exists db''. rewrite <- Htotal in Hcount. exact Hcount.
Defined.

End TagListingFacts.

(** ** The members form *)
Module MembersFormFacts.
Import Backend MembersForm.

Lemma find_unique (users : list UserAPI) (u : UserAPI) :
  NoDup ((λ user, ToString (id user)) <$> users) → u ∈ users →
  List.find (λ user, bool_decide (ToString (id user) = ToString (id u)))
            users = Some u.
Proof.
  induction users as [| v users IH]; intros Hnodup Hin.
  - by apply elem_of_nil in Hin.
  - rewrite fmap_cons in Hnodup. apply NoDup_cons in Hnodup as [Hv Hrest].
    simpl. apply elem_of_cons in Hin as [-> | Hin].
    + by rewrite bool_decide_eq_true_2.
    + rewrite bool_decide_eq_false_2; [by apply IH |].
      intros E. apply Hv. rewrite E.
      by apply (list_elem_of_fmap_2 (λ user, ToString (id user))).
Qed.

Lemma find_unknown (users : list UserAPI) (i : Id) :
  (∀ user, user ∈ users → ToString (id user) ≠ ToString i) →
  List.find (λ user, bool_decide (ToString (id user) = ToString i)) users
  = None.
Proof.
  induction users as [| v users IH]; intros Hnone; [done |].
  simpl. rewrite bool_decide_eq_false_2.
  - apply IH. intros user Hin. apply Hnone. by apply list_elem_of_further.
  - apply Hnone. apply list_elem_of_here.
Qed.

(** X22.  For users with distinct identifiers, [getUserNames] shows a listed
    user by its name, by its email when it has no name, and by its identifier
    when it has neither; an identifier that no listed user carries is shown
    as it is.  An empty name is a name: it is shown, not replaced by the
    email. *)
Theorem getUserNames_shows_name_then_email_then_id (users : list UserAPI) :
  (NoDup ((λ user, ToString (id user)) <$> users) →
   ∀ u, u ∈ users →
     getUserNames users (id u)
     = default (default (ToString (id u)) (email u)) (name u))
  ∧ (∀ i, (∀ user, user ∈ users → ToString (id user) ≠ ToString i) →
          getUserNames users i = ToString i).
Proof.
  split.
  - intros Hnodup u Hin. unfold getUserNames.
    rewrite (find_unique users u Hnodup Hin). simpl.
    by destruct (name u), (email u).
  - intros i Hnone. unfold getUserNames. by rewrite (find_unknown users i).
Qed.

Lemma getUserNames_shows_name_then_email_then_id_witness :
  getUserNames
    [ {| id := IdObjectId "u1"; name := Some "Ada";
         email := Some "ada@example.org" |};
      {| id := IdString "u2"; name := Some "";
         email := Some "bob@example.org" |};
      {| id := IdString "u3"; name := None;
         email := Some "eve@example.org" |} ]
    (IdString "u2") = "".
Proof.
  match goal with
  | |- getUserNames ?users _ = _ =>
      apply (proj1 (getUserNames_shows_name_then_email_then_id users)
               ltac:(simpl;
                     repeat (apply NoDup_cons; split;
                             [intros Hin;
                              repeat (apply elem_of_cons in Hin
                                        as [[=] | Hin]);
                              by apply elem_of_nil in Hin |]);
                     apply NoDup_nil_2)
               {| id := IdString "u2"; name := Some "";
                  email := Some "bob@example.org" |})
  end.
  apply list_elem_of_further, list_elem_of_here.
Defined.

(** X23.  The body sent on submit lists the selected members in the order
    of the form, once each as selected, and marks as admin exactly those that
    are among the selected admins; a selected admin that is not among the
    members is not sent at all. *)
Theorem onSubmitSuccess_sends_the_members_with_their_admin_flag
    (data : ProjectMembersFormData) :
  let sent := body_membersIds (onSubmitSuccess data) in
  userId <$> sent = membersIds data
  ∧ (∀ m, m ∈ sent → (isAdmin m = true ↔ userId m ∈ adminsIds data))
  ∧ (∀ a, a ∈ adminsIds data → a ∉ membersIds data →
          ∀ m, m ∈ sent → userId m ≠ a).
Proof.
  intros sent. subst sent. unfold onSubmitSuccess. simpl.
  assert (userId <$>
            ((λ el, {| userId := el;
                       isAdmin := bool_decide (el ∈ adminsIds data) |})
             <$> membersIds data) = membersIds data) as Hids.
  { rewrite <- list_fmap_compose. simpl. apply list_fmap_id. }
  split; [exact Hids |]. split.
  - intros m Hin. apply list_elem_of_fmap in Hin as (el & -> & _). simpl.
    apply bool_decide_eq_true.
  - intros a _ Hnot m Hin E. apply Hnot. rewrite <- E, <- Hids.
    by apply (list_elem_of_fmap_2 userId).
Qed.

End MembersFormFacts.
